(** * Student Report Card Manager: a shallow embedding and its properties

    The development follows [Student_Report_Card_Manager.py]: the class
    [Student] (a record with an id, a name and a dict of subject scores) and
    the class [GradeManager] (an ordered list of students, an id counter, and
    persistence to a JSON file).

    Modelling choices, all visible in the definitions below:
    - a Python [str] is a [string], each character read as a code point
      below 256;
    - a score is a rational number [Q], the value of the Python int or
      finite float: the comparisons of the program are exact on them. The
      sum and the quotient of [average] are rounded to binary64, to nearest
      and ties to even ([round64]); NaN, the infinities and overflow are
      outside the model;
    - the dict [Student.subjects] is a [gmap string Q]: equality of maps is
      Python's [==] on dicts, and the order of insertion is not kept. The
      model adds the values of [average], and writes the subjects of a
      record to a file, in the order of the map, where the program goes by
      insertion; what is proved about sums is proved where every order gives
      the same sum. The [scores] argument of [add_student] is the sequence
      [scores.items()], since the order of iteration matters there;
    - a record has an int id and numbers as scores. A file can give
      [from_dict] other values, which the program stores as they come: there
      the model stops with the outcome [Untyped], and nothing is stated
      about such a run;
    - a method that mutates [self] and may raise is a function from the
      state before to the outcome ([Ok] or [Raise]) and the state after;
    - console output ([print]) is not modelled. *)

From Stdlib Require Import ZArith QArith Qabs Qpower Lqa String Ascii.
From Stdlib Require Qcanon.
From stdpp Require Import base tactics option list gmap strings fin_maps.

Local Open Scope string_scope.
Local Open Scope Z_scope.
Local Open Scope list_scope.

(** ** Python strings: [str.strip] *)

Module Str.

(** [str.isspace] on one code point below 256: TAB..CR, FS..US, SPACE,
    NEL (0x85) and NBSP (0xA0). *)
Definition is_space (c : ascii) : bool :=
  let n := N_of_ascii c in
  ((9 <=? n) && (n <=? 13) || (28 <=? n) && (n <=? 32)
   || (n =? 133) || (n =? 160))%N.

Fixpoint lstrip (s : string) : string :=
  match s with
  | EmptyString => EmptyString
  | String c s' => if is_space c then lstrip s' else s
  end.

Fixpoint rstrip (s : string) : string :=
  match s with
  | EmptyString => EmptyString
  | String c s' =>
      match rstrip s' with
      | EmptyString => if is_space c then EmptyString else String c EmptyString
      | r => String c r
      end
  end.

(** [s.strip()] with no argument. *)
Definition strip (s : string) : string := rstrip (lstrip s).

(** A string that [strip] leaves alone. *)
Definition trimmed (s : string) : Prop := strip s = s.

End Str.

(** ** Exceptions and outcomes *)

Inductive exn : Type :=
| ValueError (msg : string)
| KeyError (key : string)
| TypeError
| AttributeError
| JSONDecodeError
| UnicodeDecodeError.

(** How a call ends: it returns, it raises, or it meets a value that the
    typed records of the model cannot hold ([Untyped]). The last is no
    behaviour of the program: it marks where the model stops. *)
Inductive result (A : Type) : Type :=
| Ok (a : A)
| Raise (e : exn)
| Untyped.
Arguments Ok {A} a.
Arguments Raise {A} e.
Arguments Untyped {A}.

(** Sequencing: an exception ends the computation. *)
#[global] Instance result_ret : MRet result := fun A a => Ok a.
#[global] Instance result_bind : MBind result := fun A B k r =>
  match r with
  | Ok a => k a
  | Raise e => Raise e
  | Untyped => Untyped
  end.

(** [[f(x) for x in l]]: the elements in order, stopping at the first one
    that raises. *)
Fixpoint traverse {A B : Type} (f : A → result B) (l : list A) : result (list B) :=
  match l with
  | [] => Ok []
  | x :: l' => y ← f x; ys ← traverse f l'; Ok (y :: ys)
  end.

(** ** class Student *)

Record Student : Type := mkStudent {
  id : Z;
  name : string;
  subjects : gmap string Q
}.

(** [Student.__init__] *)
Definition Student_init (student_id : Z) (name : string) : Student :=
  {| id := student_id; name := Str.strip name; subjects := ∅ |}.

(** [0 <= score <= 100] *)
Definition in_range (score : Q) : bool :=
  Qle_bool 0 score && Qle_bool score 100.

Definition score_message : string := "Score must be between 0 and 100.".

(** [Student.set_score]: the outcome and the record afterwards. *)
Definition set_score (subject : string) (score : Q) (self : Student)
  : result unit * Student :=
  if negb (in_range score) then (Raise (ValueError score_message), self)
  else (Ok tt, {| id := id self; name := name self;
                  subjects := <[Str.strip subject := score]> (subjects self) |}).

(** *** Binary64 arithmetic

    An operation on floats gives the exact result rounded to the nearest
    binary64 number, ties to the even significand. *)

(** The integer nearest to [n / d], for [d > 0], ties to even. *)
Definition round_half_even (n d : Z) : Z :=
  let q := n / d in
  match 2 * (n mod d) ?= d with
  | Lt => q
  | Gt => q + 1
  | Eq => if Z.even q then q else q + 1
  end.

(** For [a > 0], the [k] with [2 ^ k <= a < 2 ^ (k + 1)]. *)
Definition binade (a : Q) : Z :=
  let k := Z.log2 (Qnum a) - Z.log2 (Zpos (Qden a)) in
  if Qle_bool (2 ^ k) a then k else k - 1.

(** The binary64 number nearest to [q]: a significand of 53 bits, and of
    fewer bits below [2 ^ -1022], where the spacing stays [2 ^ -1074]. *)
Definition round64 (q : Q) : Q :=
  let q := Qred q in
  if Qeq_bool q 0 then 0%Q
  else
    let a := Qabs q in
    let e := Z.max (binade a - 52) (-1074) in
    let s := (a / 2 ^ e)%Q in
    let r := (inject_Z (round_half_even (Qnum s) (Zpos (Qden s))) * 2 ^ e)%Q in
    Qred (if Qle_bool 0 q then r else - r).

(** The builtin [sum(xs)]: left to right, starting from 0, each addition
    rounded. (From Python 3.12 on [sum] also carries a compensation term;
    the two agree whenever the additions are exact.) *)
Definition py_sum (xs : list Q) : Q :=
  foldl (λ acc x, round64 (acc + x)) 0%Q xs.

(** [self.subjects.values()] *)
Definition values (self : Student) : list Q := (map_to_list (subjects self)).*2.

(** [Student.average] *)
Definition average (self : Student) : Q :=
  if decide (subjects self = ∅) then 0%Q
  else round64 (py_sum (values self) / inject_Z (Z.of_nat (size (subjects self)))).

(** [Student.grade] *)
Definition grade (self : Student) : string :=
  let avg := average self in
  if Qle_bool 90 avg then "A"
  else if Qle_bool 75 avg then "B"
  else if Qle_bool 50 avg then "C"
  else "Fail".

(** ** JSON documents and files

    A JSON value as [json.loads] returns it. A number written as an integer
    is an int ([JInt]) and any other number a float ([JNum], by its value);
    the members of an object are kept in document order, and a key that
    occurs twice takes its last value, as in the dict [json.loads] builds. *)

#[local] Set Warnings "-register-all".
Inductive json : Type :=
| JNull
| JBool (b : bool)
| JInt (z : Z)
| JNum (q : Q)
| JStr (s : string)
| JArr (items : list json)
| JObj (members : list (string * json)).

(** The value a key has in the dict built from [members]. *)
Fixpoint member (key : string) (members : list (string * json)) : option json :=
  match members with
  | [] => None
  | (k, v) :: rest =>
      match member key rest with
      | Some v' => Some v'
      | None => if decide (k = key) then Some v else None
      end
  end.

(** [data[key]] *)
Definition getitem (data : json) (key : string) : result json :=
  match data with
  | JObj members =>
      match member key members with
      | Some v => Ok v
      | None => Raise (KeyError key)
      end
  | _ => Raise TypeError
  end.

(** [data.get(key, dflt)] *)
Definition get (data : json) (key : string) (dflt : json) : result json :=
  match data with
  | JObj members => Ok (default dflt (member key members))
  | _ => Raise AttributeError
  end.

(** The keys of the dict built from [members], in the order of their first
    insertion. *)
Definition keys (members : list (string * json)) : list string :=
  foldl (λ (acc : list string) k, if decide (k ∈ acc) then acc else acc ++ [k])
    [] members.*1.

(** [for d in data]: a list yields its items, a dict its keys, a string its
    characters; nothing else is iterable. *)
Definition iterate (data : json) : result (list json) :=
  match data with
  | JArr items => Ok items
  | JObj members => Ok (JStr <$> keys members)
  | JStr s => Ok ((λ c, JStr (String c EmptyString)) <$> list_ascii_of_string s)
  | _ => Raise TypeError
  end.

(** The content of a file, as far as [read_text] and [json.loads] can
    tell: the document it parses to, text that is no JSON document, or bytes
    that are no text. [json.dumps] followed by [json.loads] gives back the
    value. *)
Inductive text : Type :=
| Document (doc : json)
| Garbled
| Undecodable.

Definition json_dumps (v : json) : text := Document v.

(** [json.loads(file.read_text())] *)
Definition json_loads (t : text) : result json :=
  match t with
  | Document doc => Ok doc
  | Garbled => Raise JSONDecodeError
  | Undecodable => Raise UnicodeDecodeError
  end.

(** A file system: the files that exist, by path, with their text. Writing
    always succeeds. *)
Abbreviation filesystem := (gmap string text).

(** ** Student: JSON helpers *)

(** [Student.to_dict] *)
Definition to_dict (self : Student) : json :=
  JObj [("id", JInt (id self));
        ("name", JStr (name self));
        ("subjects", JObj ((λ kv, (kv.1, JNum kv.2)) <$> map_to_list (subjects self)))].

(** [name.strip()] on a value read from a document: only a [str] has the
    method. *)
Definition strip_value (v : json) : result string :=
  match v with
  | JStr s => Ok (Str.strip s)
  | _ => Raise AttributeError
  end.

(** The typed reading of the fields Python stores as they come. An id that
    is not an int (a float, even a whole one, a string, ...), or subjects
    that are not a dict of numbers, would make a Student that the record
    type above cannot hold: there the model stops with [Untyped]. *)
Definition as_int (v : json) : result Z :=
  match v with
  | JInt z => Ok z
  | _ => Untyped
  end.

Definition as_number (v : json) : result Q :=
  match v with
  | JInt z => Ok (inject_Z z)
  | JNum q => Ok q
  | _ => Untyped
  end.

(** [d[k] = v] for each item [(k, v)], in order; and the dict built that
    way from the empty one. *)
Definition dict_update (d : gmap string Q) (items : list (string * Q))
  : gmap string Q :=
  foldl (λ d kv, <[kv.1 := kv.2]> d) d items.

Definition dict_of_items (items : list (string * Q)) : gmap string Q :=
  dict_update ∅ items.

Definition as_scores (v : json) : result (gmap string Q) :=
  match v with
  | JObj members =>
      items ← traverse (λ kv, q ← as_number kv.2; Ok (kv.1, q)) members;
      Ok (dict_of_items items)
  | _ => Untyped
  end.

(** [Student.from_dict] *)
Definition from_dict (data : json) : result Student :=
  data_id ← getitem data "id";
  data_name ← getitem data "name";
  stripped ← strip_value data_name;
  data_subjects ← get data "subjects" (JObj []);
  student_id ← as_int data_id;
  scores ← as_scores data_subjects;
  Ok {| id := student_id; name := stripped; subjects := scores |}.

(** ** class GradeManager *)

Record GradeManager : Type := mkGradeManager {
  students : list Student;
  _next_id : Z
}.

(** [GradeManager.__init__] *)
Definition GradeManager_init : GradeManager :=
  {| students := []; _next_id := 1 |}.

(** The loop of [add_student]: [set_score] for each item, in order, on the
    record [stu]; the first exception ends it and leaves [stu] as it is. *)
Fixpoint set_scores (items : list (string * Q)) (stu : Student)
  : result unit * Student :=
  match items with
  | [] => (Ok tt, stu)
  | (sub, sc) :: rest =>
      match set_score sub sc stu with
      | (Ok _, stu') => set_scores rest stu'
      | (Raise e, stu') => (Raise e, stu')
      | (Untyped, stu') => (Untyped, stu')
      end
  end.

(** [GradeManager.add_student]. Besides the outcome and the manager, the
    result gives the object bound to the local [stu] when the call ends. *)
Definition add_student (name : string) (scores : list (string * Q))
    (self : GradeManager) : result Student * GradeManager * Student :=
  let stu := Student_init (_next_id self) name in
  match set_scores scores stu with
  | (Raise e, stu) => (Raise e, self, stu)
  | (Ok _, stu) =>
      (Ok stu,
       {| students := students self ++ [stu]; _next_id := _next_id self + 1 |},
       stu)
  | (Untyped, stu) => (Untyped, self, stu)
  end.

(** [GradeManager.find] *)
Definition find (student_id : Z) (self : GradeManager) : option Student :=
  head (filter (λ s, id s = student_id) (students self)).

(** [GradeManager.delete] *)
Definition delete (student_id : Z) (self : GradeManager) : bool * GradeManager :=
  let before := length (students self) in
  let self' := {| students := filter (λ s, id s ≠ student_id) (students self);
                  _next_id := _next_id self |} in
  (bool_decide (length (students self') < before)%nat, self').

(** [GradeManager.save]: the file system afterwards. *)
Definition save (file : string) (self : GradeManager) (fs : filesystem)
  : filesystem :=
  let data := to_dict <$> students self in
  <[file := json_dumps (JArr data)]> fs.

(** The builtin [max] on a sequence with first element [x]. *)
Definition py_max (x : Z) (xs : list Z) : Z := foldl Z.max x xs.

(** [GradeManager.load]. Reading the file, parsing it and building the
    records (lines 91 and 92) come before the assignment to [self.students],
    so an exception raised there leaves the manager as it was. The ids of
    the records built are ints, on which [max] and [+ 1] do not raise. *)
Definition load (file : string) (fs : filesystem) (self : GradeManager)
  : result unit * GradeManager :=
  match fs !! file with
  | None => (Ok tt, self)
  | Some t =>
      match (data ← json_loads t; ds ← iterate data; traverse from_dict ds) with
      | Raise e => (Raise e, self)
      | Untyped => (Untyped, self)
      | Ok [] => (Ok tt, {| students := []; _next_id := _next_id self |})
      | Ok (s :: rest) =>
          (Ok tt, {| students := s :: rest;
                     _next_id := py_max (id s) (id <$> rest) + 1 |})
      end
  end.


(** Option 2 of the menu in [main]: [stu = gm.find(sid)], then
    [stu.set_score(subject, score)]. The record found is the object in the
    list, so the list sees the change; [None] when no record has the id. *)
Fixpoint update_first (student_id : Z) (subject : string) (score : Q)
    (l : list Student) : option (result unit * list Student) :=
  match l with
  | [] => None
  | s :: rest =>
      if decide (id s = student_id)
      then Some ((set_score subject score s).1, (set_score subject score s).2 :: rest)
      else (λ r, (r.1, s :: r.2)) <$> update_first student_id subject score rest
  end.

Definition update_score (student_id : Z) (subject : string) (score : Q)
    (self : GradeManager) : option (result unit) * GradeManager :=
  match update_first student_id subject score (students self) with
  | None => (None, self)
  | Some (r, l) => (Some r, {| students := l; _next_id := _next_id self |})
  end.

(** One operation of a session, and the managers a session can reach from a
    new one. *)
Inductive step (self : GradeManager) : GradeManager → Prop :=
| step_add (name : string) (scores : list (string * Q)) :
    step self (add_student name scores self).1.2
| step_update (student_id : Z) (subject : string) (score : Q) :
    step self (update_score student_id subject score self).2
| step_delete (student_id : Z) :
    step self (delete student_id self).2
| step_load (file : string) (fs : filesystem) :
    step self (load file fs self).2.

Definition reachable (self : GradeManager) : Prop :=
  rtc step GradeManager_init self.

(** ** The words of the specification *)

(** A score in the closed range [0, 100]. *)
Definition valid_score (s : Q) : Prop := (0 <= s <= 100)%Q.




(** Sample records. *)
Definition ada : Student := Student_init 1 " Ada Lovelace ".

Definition with_scores (items : list (string * Q)) : Student :=
  {| id := 7; name := "Bo"; subjects := dict_of_items items |}.


(** The items with their keys trimmed, as [set_score] stores them. *)
Definition strip_keys (items : list (string * Q)) : list (string * Q) :=
  (λ kv, (Str.strip kv.1, kv.2)) <$> items.

(** "The subjects hold every entry of scores": each entry's score is what
    its trimmed key maps to. *)
Definition holds_every_entry (scores : list (string * Q)) (stu : Student) : Prop :=
  ∀ k v, (k, v) ∈ scores → subjects stu !! Str.strip k = Some v.

(** A caller that adds one student after another. *)
Fixpoint add_all (inputs : list (string * list (string * Q)))
    (self : GradeManager) : GradeManager :=
  match inputs with
  | [] => self
  | (name, scores) :: rest => add_all rest (add_student name scores self).1.2
  end.

(** Sample batches of scores. *)
Definition batch_ok : list (string * Q) :=
  [("Math", 95%Q); (" History ", 88%Q); ("Math ", 91.5%Q)].

Definition batch_bad : list (string * Q) :=
  [("Math", 95%Q); ("Art", 120%Q); ("History", 88%Q)].

Definition batch_colliding : list (string * Q) :=
  [("a ", 10%Q); ("a", 20%Q)].

(** Sample calls of a session. *)
Definition session : list (string * list (string * Q)) :=
  [(" Ada ", batch_ok); ("Bo", []); ("Di", batch_colliding)].

(** "Removes the first record whose id matches". *)
Fixpoint remove_first (student_id : Z) (l : list Student) : list Student :=
  match l with
  | [] => []
  | s :: rest =>
      if decide (id s = student_id) then rest
      else s :: remove_first student_id rest
  end.

(** Every name in the collection is as [Student.__init__] leaves it. *)
Definition names_trimmed (self : GradeManager) : Prop :=
  Forall (λ s, Str.trimmed (name s)) (students self).

(** Sample managers and files. *)
Definition class_of_three : GradeManager := add_all session GradeManager_init.

Definition doc_twins : json :=
  JArr [JObj [("id", JInt 1); ("name", JStr "Ann")];
        JObj [("name", JStr " Ben "); ("id", JInt 1);
              ("subjects", JObj [("Math", JNum 40)])]].

Definition disk_twins : filesystem := {[ "grades.json" := Document doc_twins ]}.

Definition twins : GradeManager :=
  {| students := [ {| id := 1; name := "Ann"; subjects := ∅ |};
                   {| id := 1; name := "Ben"; subjects := {[ "Math" := 40%Q ]} |} ];
     _next_id := 2 |}.

Definition disk_no_records : filesystem := {[ "grades.json" := Document (JArr []) ]}.

(** Every id in the collection is below the counter. *)
Definition ids_below_next (self : GradeManager) : Prop :=
  Forall (λ s, id s < _next_id self) (students self).

(** ** The console: [ask_scores] and [main]

    Standard input is the list of the lines still to be read; [input()]
    takes the first one. When there is none it raises: EOFError at the end
    of the input, KeyboardInterrupt when the user interrupts the program
    instead of typing; both leave [ask_scores] and the round of the menu in
    the same way, and [main] tells them apart. An interrupt is taken to
    come while the program waits in [input()]. What is printed is not
    modelled. The builtins [int] and [float] are parameters: [None] stands
    for their ValueError. *)

(** How the console code can end besides returning: [input()] found no
    line and raised, an exception of the classes above reached the top, or
    a [load] left the typed model. *)
Inductive crash : Type :=
| NoInput
| Uncaught (e : exn)
| LeftModel.

(** [scores[sub] = sc] on a dict in insertion order: the value of a present
    key is replaced where it stands, a new key goes to the end. *)
Fixpoint setitem (k : string) (v : Q) (d : list (string * Q)) : list (string * Q) :=
  match d with
  | [] => [(k, v)]
  | (k', v') :: rest =>
      if decide (k' = k) then (k', v) :: rest else (k', v') :: setitem k v rest
  end.

(** The loop of [ask_scores], from the dict built so far: [None] when
    [input()] raised, otherwise the dict and the lines left. A score that [float]
    rejects is reported and the loop goes on. *)
Fixpoint ask_scores_from (py_float : string → option Q) (scores : list (string * Q))
    (stdin : list string) : option (list (string * Q) * list string) :=
  match stdin with
  | [] => None
  | line :: rest =>
      let sub := Str.strip line in
      if decide (sub = "") then Some (scores, rest)
      else
        match rest with
        | [] => None
        | line' :: rest' =>
            match py_float line' with
            | Some sc => ask_scores_from py_float (setitem sub sc scores) rest'
            | None => ask_scores_from py_float scores rest'
            end
        end
  end.

(** [ask_scores] *)
Definition ask_scores (py_float : string → option Q) (stdin : list string)
  : option (list (string * Q) * list string) :=
  ask_scores_from py_float [] stdin.

Definition DATA_FILE : string := "grades.json".

(** What [main] works on: the manager [gm], the files, the lines to read. *)
Record world : Type := mkWorld {
  gm : GradeManager;
  disk : filesystem;
  stdin : list string
}.

(** How one round of the menu ends. *)
Inductive flow : Type :=
| Continue
| Break
| Crash (c : crash).

(** One round of [while True] in [main]: read the choice and serve it. *)
Definition menu_round (py_int : string → option Z) (py_float : string → option Q)
    (w : world) : flow * world :=
  match stdin w with
  | [] => (Crash NoInput, w)
  | line :: inp =>
      let choice := Str.strip line in
      if decide (choice = "1") then
        match inp with
        | [] => (Crash NoInput, mkWorld (gm w) (disk w) [])
        | line1 :: inp1 =>
            let name := Str.strip line1 in
            match ask_scores py_float inp1 with
            | None => (Crash NoInput, mkWorld (gm w) (disk w) [])
            | Some (scores, inp2) =>
                match add_student name scores (gm w) with
                | (Raise e, _, _) =>
                    (Crash (Uncaught e), mkWorld (gm w) (disk w) inp2)
                | (Ok _, gm', _) => (Continue, mkWorld gm' (disk w) inp2)
                | (Untyped, _, _) => (Crash LeftModel, mkWorld (gm w) (disk w) inp2)
                end
            end
        end
      else if decide (choice = "2") then
        match inp with
        | [] => (Crash NoInput, mkWorld (gm w) (disk w) [])
        | line1 :: inp1 =>
            match py_int line1 with
            | None => (Continue, mkWorld (gm w) (disk w) inp1)
            | Some sid =>
                match find sid (gm w) with
                | None => (Continue, mkWorld (gm w) (disk w) inp1)
                | Some _ =>
                    match inp1 with
                    | [] => (Crash NoInput, mkWorld (gm w) (disk w) [])
                    | line2 :: inp2 =>
                        let subject := Str.strip line2 in
                        match inp2 with
                        | [] => (Crash NoInput, mkWorld (gm w) (disk w) [])
                        | line3 :: inp3 =>
                            match py_float line3 with
                            | None => (Continue, mkWorld (gm w) (disk w) inp3)
                            | Some score =>
                                (Continue,
                                 mkWorld (update_score sid subject score (gm w)).2
                                         (disk w) inp3)
                            end
                        end
                    end
                end
            end
        end
      else if decide (choice = "3") then
        match inp with
        | [] => (Crash NoInput, mkWorld (gm w) (disk w) [])
        | _ :: inp1 => (Continue, mkWorld (gm w) (disk w) inp1)
        end
      else if decide (choice = "4") then
        match inp with
        | [] => (Crash NoInput, mkWorld (gm w) (disk w) [])
        | line1 :: inp1 =>
            match py_int line1 with
            | None => (Continue, mkWorld (gm w) (disk w) inp1)
            | Some sid => (Continue, mkWorld (delete sid (gm w)).2 (disk w) inp1)
            end
        end
      else if decide (choice = "5") then
        (Continue, mkWorld (gm w) (save DATA_FILE (gm w) (disk w)) inp)
      else if decide (choice = "6") then
        match load DATA_FILE (disk w) (gm w) with
        | (Raise e, _) => (Crash (Uncaught e), mkWorld (gm w) (disk w) inp)
        | (Ok _, gm') => (Continue, mkWorld gm' (disk w) inp)
        | (Untyped, _) => (Crash LeftModel, mkWorld (gm w) (disk w) inp)
        end
      else if decide (choice = "7") then
        (Continue, mkWorld (gm w) (disk w) inp)
      else if decide (choice = "0") then
        (Break, mkWorld (gm w) (save DATA_FILE (gm w) (disk w)) inp)
      else (Continue, mkWorld (gm w) (disk w) inp)
  end.

(** How [main] ends: it returns, it dies of an exception, or the rounds
    allowed to the model are used up. *)
Inductive ending : Type :=
| Returned
| Died (c : crash)
| OutOfRounds.

(** The [while True] loop, for at most [rounds] rounds. *)
Fixpoint menu_loop (py_int : string → option Z) (py_float : string → option Q)
    (rounds : nat) (w : world) : ending * world :=
  match rounds with
  | O => (OutOfRounds, w)
  | S rounds' =>
      match menu_round py_int py_float w with
      | (Continue, w') => menu_loop py_int py_float rounds' w'
      | (Break, w') => (Returned, w')
      | (Crash c, w') => (Died c, w')
      end
  end.

(** [main]: a new manager, [load], then the menu inside [try]. The lines
    typed end with the end of the input or, when [interrupt] is set, with
    the user's interrupt: then the handler of KeyboardInterrupt saves and
    [main] returns. EOFError is not caught. *)
Definition main (py_int : string → option Z) (py_float : string → option Q)
    (rounds : nat) (files : filesystem) (lines : list string)
    (interrupt : bool) : ending * world :=
  match load DATA_FILE files GradeManager_init with
  | (Raise e, gm0) => (Died (Uncaught e), mkWorld gm0 files lines)
  | (Untyped, gm0) => (Died LeftModel, mkWorld gm0 files lines)
  | (Ok _, gm0) =>
      match menu_loop py_int py_float rounds (mkWorld gm0 files lines) with
      | (Died NoInput, w) =>
          if interrupt
          then (Returned,
                mkWorld (gm w) (save DATA_FILE (gm w) (disk w)) (stdin w))
          else (Died NoInput, w)
      | end_w => end_w
      end
  end.

(** ** More words for the properties below *)

(** The operations that do not read a file. *)
Inductive edit (self : GradeManager) : GradeManager → Prop :=
| edit_add (name : string) (scores : list (string * Q)) :
    edit self (add_student name scores self).1.2
| edit_update (student_id : Z) (subject : string) (score : Q) :
    edit self (update_score student_id subject score self).2
| edit_delete (student_id : Z) :
    edit self (delete student_id self).2.

Definition edited (self : GradeManager) : Prop :=
  rtc edit GradeManager_init self.

(** The operations of a session in which every [load] stays within the
    typed model: the file is missing, or [load] raises while it reads the
    file and builds the records, or every record of the file has an int id
    and numbers as scores. *)
Inductive typed_step (self : GradeManager) : GradeManager → Prop :=
| typed_add (name : string) (scores : list (string * Q)) :
    typed_step self (add_student name scores self).1.2
| typed_update (student_id : Z) (subject : string) (score : Q) :
    typed_step self (update_score student_id subject score self).2
| typed_delete (student_id : Z) :
    typed_step self (delete student_id self).2
| typed_load (file : string) (fs : filesystem) :
    (load file fs self).1 ≠ Untyped →
    typed_step self (load file fs self).2.

Definition typed_session (self : GradeManager) : Prop :=
  rtc typed_step GradeManager_init self.

Definition ids_unique (self : GradeManager) : Prop :=
  NoDup (id <$> students self).

Definition scores_in_range (s : Student) : Prop :=
  ∀ k v, subjects s !! k = Some v → valid_score v.

(** The dicts [ask_scores] builds: keys that are not empty, trimmed and
    pairwise distinct. *)
Definition console_keys (d : list (string * Q)) : Prop :=
  NoDup d.*1 ∧ Forall (λ k, k ≠ "" ∧ Str.trimmed k) d.*1.

(** Sample parsers for the examples: unsigned decimal numerals, with
    whitespace around them allowed. *)
Definition digit (c : ascii) : option Z :=
  let n := N_of_ascii c in
  if ((48 <=? n) && (n <=? 57))%N then Some (Z.of_N (n - 48)) else None.

Fixpoint digits (acc : Z) (s : string) : option Z :=
  match s with
  | EmptyString => Some acc
  | String c s' => d ← digit c; digits (10 * acc + d) s'
  end.

Definition sample_int (s : string) : option Z :=
  match Str.strip s with
  | EmptyString => None
  | t => digits 0 t
  end.

Definition sample_float (s : string) : option Q :=
  inject_Z <$> sample_int s.

(** A sample session at the console. *)
Definition sample_lines : list string :=
  ["1"; " Ada "; "Math"; "95"; " History "; "88"; "Math "; "91"; "";
   "1"; "Bo"; "";
   "2"; "1"; "Art"; "120";
   "4"; "2";
   "9";
   "0"].

(** The cases of one round of the menu. *)
Ltac menu_cases H :=
  unfold menu_round in H;
  repeat match type of H with
         | context [match ?x with _ => _ end] => destruct x eqn:?
         end;
  simplify_eq.

(** Closed goals settled by evaluation. *)
Ltac by_computation :=
  vm_compute; first [reflexivity | discriminate | by intuition discriminate].

(** ** Properties of [strip] *)

Module StrFacts.
Import Str.

Lemma lstrip_head (s : string) :
  lstrip s = EmptyString ∨ ∃ c r, lstrip s = String c r ∧ is_space c = false.
Proof.
  induction s as [|c s IH]; simpl; [by left|].
  destruct (is_space c) eqn:Hc; [done|]. right. by exists c, s.
Qed.

Lemma lstrip_no_space (c : ascii) (r : string) :
  is_space c = false → lstrip (String c r) = String c r.
Proof. intros Hc. simpl. by rewrite Hc. Qed.

Lemma rstrip_keeps_head (c : ascii) (r : string) :
  is_space c = false → ∃ r', rstrip (String c r) = String c r'.
Proof.
  intros Hc. simpl. destruct (rstrip r); rewrite ?Hc; eauto.
Qed.

Lemma rstrip_idempotent (s : string) : rstrip (rstrip s) = rstrip s.
Proof.
  induction s as [|c s IH]; simpl; [done|].
  destruct (rstrip s) as [|c' r] eqn:Hr.
  - destruct (is_space c) eqn:Hc; simpl; by rewrite ?Hc.
  - change (rstrip (String c (String c' r))) with
      (match rstrip (String c' r) with
       | EmptyString => if is_space c then EmptyString else String c EmptyString
       | r0 => String c r0
       end).
    by rewrite IH.
Qed.

Lemma strip_idempotent (s : string) : strip (strip s) = strip s.
Proof.
  unfold strip. destruct (lstrip_head s) as [->|(c & r & -> & Hc)]; [done|].
  destruct (rstrip_keeps_head c r Hc) as [r' Hr'].
  rewrite <- (rstrip_idempotent (String c r)) at 2.
  rewrite Hr' at 1 2. by rewrite (lstrip_no_space c r' Hc).
Qed.

Lemma strip_trimmed (s : string) : trimmed (strip s).
Proof. apply strip_idempotent. Qed.

End StrFacts.

Example strip_sample : Str.strip "  Ada  Lovelace  " = "Ada  Lovelace".
Proof. reflexivity. Qed.

(** ** Student.set_score *)

Lemma in_range_valid (s : Q) : in_range s = true ↔ valid_score s.
Proof.
  unfold in_range, valid_score.
  rewrite andb_true_iff, !Qle_bool_iff. tauto.
Qed.

Lemma in_range_invalid (s : Q) : in_range s = false ↔ ¬ valid_score s.
Proof.
  rewrite <- in_range_valid. destruct (in_range s); split; congruence.
Qed.

Lemma set_score_invalid (subject : string) (s : Q) (self : Student) :
  ¬ valid_score s →
  set_score subject s self = (Raise (ValueError score_message), self).
Proof.
  intros Hs. apply in_range_invalid in Hs. unfold set_score. by rewrite Hs.
Qed.

Lemma set_score_valid (subject : string) (s : Q) (self : Student) :
  valid_score s →
  set_score subject s self =
    (Ok tt, {| id := id self; name := name self;
               subjects := <[Str.strip subject := s]> (subjects self) |}).
Proof.
  intros Hs. apply in_range_valid in Hs. unfold set_score. by rewrite Hs.
Qed.

(** C5. A score outside [0, 100] makes [set_score] raise ValueError and
    leaves the record, so its subjects, as it was; a score in [0, 100] makes
    it return, and then the trimmed subject maps to exactly that score, every
    other key has the value it had, and id and name are the same. *)
Theorem set_score_spec (self : Student) (subject : string) (s : Q) :
  (¬ valid_score s →
     set_score subject s self = (Raise (ValueError score_message), self))
  ∧ (valid_score s →
     ∃ self', set_score subject s self = (Ok tt, self')
       ∧ subjects self' !! Str.strip subject = Some s
       ∧ (∀ k, k ≠ Str.strip subject → subjects self' !! k = subjects self !! k)
       ∧ id self' = id self ∧ name self' = name self).
Proof.
  split; intros Hs.
  - by apply set_score_invalid.
  - eexists. split; [by apply set_score_valid|]. simpl.
    split; [apply lookup_insert_eq|].
    split; [|done]. intros k Hk. by apply lookup_insert_ne.
Qed.

Lemma set_score_spec_witness :
  set_score " Math " (-5) ada = (Raise (ValueError score_message), ada)
  ∧ ∃ self', set_score " Math " 95.5 ada = (Ok tt, self')
      ∧ subjects self' !! "Math" = Some 95.5%Q
      ∧ (∀ k, k ≠ "Math" → subjects self' !! k = subjects ada !! k)
      ∧ id self' = id ada ∧ name self' = name ada.
Proof.
  split.
  - apply (proj1 (set_score_spec ada " Math " (-5))).
    intros [H _]. vm_compute in H. by apply H.
  - apply (proj2 (set_score_spec ada " Math " 95.5)).
    split; vm_compute; discriminate.
Defined.

(** ** Binary64 rounding *)










Example round64_third : round64 (1 # 3) = (6004799503160661 # 18014398509481984)%Q.
Proof. by vm_compute. Qed.

(** 0.1 + 0.2 gives 0.30000000000000004. *)
Example round64_sum_of_tenths :
  round64 (round64 (1 # 10) + round64 (2 # 10))
  = (1351079888211149 # 4503599627370496)%Q.
Proof. by vm_compute. Qed.

(** ** Student.average and Student.grade *)












Lemma Qle_bool_false (x y : Q) : Qle_bool x y = false ↔ (y < x)%Q.
Proof.
  split; intros H.
  - apply Qnot_le_lt. rewrite <- Qle_bool_iff. congruence.
  - apply Qlt_not_le in H. rewrite <- Qle_bool_iff in H.
    by destruct (Qle_bool x y).
Qed.

(** C6. [grade] is the step function of [average], each band closed below:
    90 and above is A; from 75 up to but not 90 is B; from 50 up to but not
    75 is C; below 50 is Fail. *)
Theorem grade_bands (self : Student) :
  ((90 <= average self)%Q → grade self = "A")
  ∧ ((75 <= average self)%Q ∧ (average self < 90)%Q → grade self = "B")
  ∧ ((50 <= average self)%Q ∧ (average self < 75)%Q → grade self = "C")
  ∧ ((average self < 50)%Q → grade self = "Fail").
Proof.
  unfold grade. repeat split.
  - intros H. apply Qle_bool_iff in H. by rewrite H.
  - intros [H1 H2]. apply Qle_bool_iff in H1. apply Qle_bool_false in H2.
    by rewrite H2, H1.
  - intros [H1 H2].
    assert (average self < 90)%Q as H3 by (eapply Qlt_trans; [exact H2|done]).
    apply Qle_bool_iff in H1. apply Qle_bool_false in H2, H3.
    by rewrite H3, H2, H1.
  - intros H.
    assert (average self < 75)%Q as H2 by (eapply Qlt_trans; [exact H|done]).
    assert (average self < 90)%Q as H3 by (eapply Qlt_trans; [exact H|done]).
    apply Qle_bool_false in H, H2, H3. by rewrite H3, H2, H.
Qed.

Lemma grade_bands_witness :
  grade (with_scores [("Math", 90%Q)]) = "A"
  ∧ grade (with_scores [("Math", 89.999%Q)]) = "B"
  ∧ grade (with_scores [("Math", 75%Q)]) = "B"
  ∧ grade (with_scores [("Math", 74.999%Q)]) = "C"
  ∧ grade (with_scores [("Math", 50%Q)]) = "C"
  ∧ grade (with_scores [("Math", 49.999%Q)]) = "Fail".
Proof.
  refine (conj _ (conj _ (conj _ (conj _ (conj _ _))))).
  - apply (proj1 (grade_bands _)). by_computation.
  - apply (proj1 (proj2 (grade_bands _))). split; by_computation.
  - apply (proj1 (proj2 (grade_bands _))). split; by_computation.
  - apply (proj1 (proj2 (proj2 (grade_bands _)))). split; by_computation.
  - apply (proj1 (proj2 (proj2 (grade_bands _)))). split; by_computation.
  - apply (proj2 (proj2 (proj2 (grade_bands _)))). by_computation.
Defined.

(** ** Dicts built item by item *)

Lemma dict_update_app (d : gmap string Q) (l1 l2 : list (string * Q)) :
  dict_update d (l1 ++ l2) = dict_update (dict_update d l1) l2.
Proof. apply foldl_app. Qed.

Lemma dict_update_other (d : gmap string Q) (l : list (string * Q)) (k : string) :
  Forall (λ kv, kv.1 ≠ k) l → dict_update d l !! k = d !! k.
Proof.
  revert d. induction l as [|[k' v'] l IH]; intros d Hl; [done|].
  apply Forall_cons in Hl as [Hk Hl]. simpl in Hk.
  change (dict_update (<[k' := v']> d) l !! k = d !! k).
  rewrite (IH _ Hl). by apply lookup_insert_ne.
Qed.

(** The last item with a given key decides the value of that key. *)
Lemma dict_update_last (d : gmap string Q) (l1 l2 : list (string * Q))
    (k : string) (v : Q) :
  Forall (λ kv, kv.1 ≠ k) l2 →
  dict_update d (l1 ++ (k, v) :: l2) !! k = Some v.
Proof.
  intros Hl2. rewrite dict_update_app.
  change (dict_update (<[k := v]> (dict_update d l1)) l2 !! k = Some v).
  rewrite (dict_update_other _ _ _ Hl2). apply lookup_insert_eq.
Qed.

(** A key of the result was in the dict or is the key of an item. *)
Lemma dict_update_keys (d : gmap string Q) (l : list (string * Q)) (k : string) :
  is_Some (dict_update d l !! k) → is_Some (d !! k) ∨ ∃ kv, kv ∈ l ∧ k = kv.1.
Proof.
  revert d. induction l as [|[k' v'] l IH]; intros d H; [by left|].
  change (is_Some (dict_update (<[k' := v']> d) l !! k)) in H.
  destruct (IH _ H) as [Hd|(kv & Hin & ->)].
  - destruct (decide (k' = k)) as [->|Hne].
    + right. exists (k, v'). split; [apply list_elem_of_here|done].
    + left. by rewrite lookup_insert_ne in Hd.
  - right. exists kv. split; [by apply list_elem_of_further|done].
Qed.

Lemma strip_keys_app (l1 l2 : list (string * Q)) :
  strip_keys (l1 ++ l2) = strip_keys l1 ++ strip_keys l2.
Proof. apply fmap_app. Qed.

(** ** GradeManager.add_student *)

Lemma set_scores_valid (items : list (string * Q)) (stu : Student) :
  Forall (λ kv, valid_score kv.2) items →
  set_scores items stu =
    (Ok tt, {| id := id stu; name := name stu;
               subjects := dict_update (subjects stu) (strip_keys items) |}).
Proof.
  revert stu. induction items as [|[k v] items IH]; intros stu Hv.
  - by destruct stu.
  - apply Forall_cons in Hv as [Hk Hv]. simpl in Hk |- *.
    rewrite (set_score_valid k v stu Hk). by rewrite (IH _ Hv).
Qed.

Lemma set_scores_invalid (pre post : list (string * Q)) (bad : string * Q)
    (stu : Student) :
  Forall (λ kv, valid_score kv.2) pre → ¬ valid_score bad.2 →
  set_scores (pre ++ bad :: post) stu =
    (Raise (ValueError score_message),
     {| id := id stu; name := name stu;
        subjects := dict_update (subjects stu) (strip_keys pre) |}).
Proof.
  revert stu. induction pre as [|[k v] pre IH]; intros stu Hv Hbad.
  - destruct bad as [k s]. simpl in Hbad |- *.
    rewrite (set_score_invalid k s stu Hbad). by destruct stu.
  - apply Forall_cons in Hv as [Hk Hv]. simpl in Hk |- *.
    rewrite (set_score_valid k v stu Hk). by rewrite (IH _ Hv Hbad).
Qed.

(** The first item of a batch whose score is out of range. *)
Lemma first_invalid (scores : list (string * Q)) :
  Exists (λ kv, ¬ valid_score kv.2) scores →
  ∃ pre bad post, scores = pre ++ bad :: post
    ∧ Forall (λ kv, valid_score kv.2) pre ∧ ¬ valid_score bad.2.
Proof.
  induction scores as [|kv scores IH]; intros H; [by apply Exists_nil in H|].
  destruct (in_range kv.2) eqn:Hr.
  - apply in_range_valid in Hr.
    apply Exists_cons in H as [H|H]; [done|].
    destruct (IH H) as (pre & bad & post & -> & Hpre & Hbad).
    exists (kv :: pre), bad, post.
    split; [done|]. split; [by constructor|done].
  - apply in_range_invalid in Hr. by exists [], kv, scores.
Qed.

Lemma strip_keys_last (d : gmap string Q) (l1 l2 : list (string * Q))
    (k : string) (v : Q) :
  Forall (λ kv, Str.strip kv.1 ≠ Str.strip k) l2 →
  dict_update d (strip_keys (l1 ++ (k, v) :: l2)) !! Str.strip k = Some v.
Proof.
  intros Hl2. rewrite strip_keys_app.
  change (strip_keys ((k, v) :: l2)) with ((Str.strip k, v) :: strip_keys l2).
  apply dict_update_last. unfold strip_keys. by apply Forall_fmap.
Qed.

Lemma add_student_invalid (self : GradeManager) (nm : string)
    (pre post : list (string * Q)) (bad : string * Q) :
  Forall (λ kv, valid_score kv.2) pre → ¬ valid_score bad.2 →
  add_student nm (pre ++ bad :: post) self =
    (Raise (ValueError score_message), self,
     {| id := _next_id self; name := Str.strip nm;
        subjects := dict_of_items (strip_keys pre) |}).
Proof.
  intros Hpre Hbad. unfold add_student.
  by rewrite (set_scores_invalid pre post bad _ Hpre Hbad).
Qed.

Lemma add_student_valid (self : GradeManager) (nm : string)
    (scores : list (string * Q)) :
  Forall (λ kv, valid_score kv.2) scores →
  let stu := {| id := _next_id self; name := Str.strip nm;
                subjects := dict_of_items (strip_keys scores) |} in
  add_student nm scores self =
    (Ok stu,
     {| students := students self ++ [stu]; _next_id := _next_id self + 1 |},
     stu).
Proof.
  intros Hv. unfold add_student. by rewrite (set_scores_valid scores _ Hv).
Qed.

(** C1. When some score of the batch is outside [0, 100], [add_student]
    raises ValueError, and the record it was building keeps the scores of the
    entries before the first invalid one: its subjects are the dict those
    entries give, each trimmed key with the score of the last of them that
    has it. Nothing is rolled back. *)
Theorem add_student_invalid_keeps_partial (self : GradeManager) (nm : string)
    (scores : list (string * Q)) :
  Exists (λ kv, ¬ valid_score kv.2) scores →
  ∃ pre bad post stu,
    scores = pre ++ bad :: post
    ∧ Forall (λ kv, valid_score kv.2) pre ∧ ¬ valid_score bad.2
    ∧ (add_student nm scores self).1.1 = Raise (ValueError score_message)
    ∧ (add_student nm scores self).2 = stu
    ∧ subjects stu = dict_of_items (strip_keys pre)
    ∧ ∀ l1 k v l2,
        pre = l1 ++ (k, v) :: l2 →
        Forall (λ kv, Str.strip kv.1 ≠ Str.strip k) l2 →
        subjects stu !! Str.strip k = Some v.
Proof.
  intros H. destruct (first_invalid scores H) as (pre & bad & post & -> & Hpre & Hbad).
  exists pre, bad, post. eexists.
  rewrite (add_student_invalid self nm pre post bad Hpre Hbad). simpl.
  do 6 (split; [done|]).
  intros l1 k v l2 -> Hl2. by apply strip_keys_last.
Qed.

Lemma add_student_invalid_keeps_partial_witness :
  ∃ pre bad post stu,
    batch_bad = pre ++ bad :: post
    ∧ Forall (λ kv, valid_score kv.2) pre ∧ ¬ valid_score bad.2
    ∧ (add_student "Cy" batch_bad GradeManager_init).1.1
      = Raise (ValueError score_message)
    ∧ (add_student "Cy" batch_bad GradeManager_init).2 = stu
    ∧ subjects stu = dict_of_items (strip_keys pre)
    ∧ ∀ l1 k v l2,
        pre = l1 ++ (k, v) :: l2 →
        Forall (λ kv, Str.strip kv.1 ≠ Str.strip k) l2 →
        subjects stu !! Str.strip k = Some v.
Proof.
  apply (add_student_invalid_keeps_partial GradeManager_init "Cy" batch_bad).
  apply Exists_cons. right. apply Exists_cons. left. by_computation.
Defined.

(** The record left behind by the failing call above holds the score applied
    before the failure. *)
Example keeps_partial_sample :
  subjects (add_student "Cy" batch_bad GradeManager_init).2 = {[ "Math" := 95%Q ]}.
Proof. reflexivity. Qed.

(** C10. When some score of the batch is outside [0, 100], the failing
    [add_student] leaves the manager as it was: the same records in the same
    order, nothing appended, and the same [_next_id]. *)
Theorem add_student_invalid_manager_unchanged (self : GradeManager)
    (nm : string) (scores : list (string * Q)) :
  Exists (λ kv, ¬ valid_score kv.2) scores →
  (add_student nm scores self).1.1 = Raise (ValueError score_message)
  ∧ (add_student nm scores self).1.2 = self
  ∧ students (add_student nm scores self).1.2 = students self
  ∧ _next_id (add_student nm scores self).1.2 = _next_id self.
Proof.
  intros H. destruct (first_invalid scores H) as (pre & bad & post & -> & Hpre & Hbad).
  by rewrite (add_student_invalid self nm pre post bad Hpre Hbad).
Qed.

Lemma add_student_invalid_manager_unchanged_witness :
  (add_student "Cy" batch_bad class_of_three).1.1 = Raise (ValueError score_message)
  ∧ (add_student "Cy" batch_bad class_of_three).1.2 = class_of_three
  ∧ students (add_student "Cy" batch_bad class_of_three).1.2
    = students class_of_three
  ∧ _next_id (add_student "Cy" batch_bad class_of_three).1.2
    = _next_id class_of_three.
Proof.
  apply (add_student_invalid_manager_unchanged class_of_three "Cy" batch_bad).
  apply Exists_cons. right. apply Exists_cons. left. by_computation.
Defined.

Lemma add_all_ids (inputs : list (string * list (string * Q)))
    (self : GradeManager) :
  Forall (λ call, Forall (λ kv, valid_score kv.2) call.2) inputs →
  id <$> students (add_all inputs self)
    = (id <$> students self) ++ seqZ (_next_id self) (Z.of_nat (length inputs))
  ∧ _next_id (add_all inputs self) = _next_id self + Z.of_nat (length inputs).
Proof.
  revert self. induction inputs as [|[nm scores] inputs IH]; intros self Hv.
  - simpl. rewrite app_nil_r. split; [done|lia].
  - apply Forall_cons in Hv as [Hs Hv]. simpl in Hs.
    cbn [add_all]. rewrite (add_student_valid self nm scores Hs). cbn [fst snd].
    match goal with |- context [add_all inputs ?m] =>
      destruct (IH m Hv) as [-> ->] end.
    cbn [students _next_id length].
    rewrite fmap_app, <- app_assoc. cbn [fmap list_fmap id app].
    rewrite Nat2Z.inj_succ.
    rewrite (seqZ_cons (_next_id self)) by lia.
    rewrite Z.pred_succ. split; [done|lia].
Qed.

(** C8, as stated, fails: two entries whose keys are equal once trimmed are
    both valid, and the record holds only the later one. *)
Lemma add_student_colliding_keys :
  Forall (λ kv, valid_score kv.2) batch_colliding
  ∧ ∃ stu, (add_student "Di" batch_colliding GradeManager_init).1.1 = Ok stu
      ∧ subjects stu = {[ "a" := 20%Q ]}
      ∧ ¬ holds_every_entry batch_colliding stu.
Proof.
  split; [repeat constructor; by_computation|].
  eexists. split; [reflexivity|]. split; [reflexivity|].
  intros H. specialize (H "a " 10%Q (list_elem_of_here _ _)).
  vm_compute in H. discriminate.
Qed.

(** C8, amended. When every score of the batch lies in [0, 100],
    [add_student] returns a record whose id is the current [_next_id] and
    whose name is the trimmed name; its subjects map the trimmed key of an
    entry to that entry's score unless a later entry has the same trimmed
    key, and have no key besides the trimmed keys of the entries. The record
    is appended at the end of the collection and [_next_id] grows by one. So
    a fresh manager gives the ids 1, 2, 3, ... in order. *)
Theorem add_student_valid_spec :
  (∀ (self : GradeManager) (nm : string) (scores : list (string * Q)),
     Forall (λ kv, valid_score kv.2) scores →
     ∃ stu,
       add_student nm scores self =
         (Ok stu,
          {| students := students self ++ [stu]; _next_id := _next_id self + 1 |},
          stu)
       ∧ id stu = _next_id self ∧ name stu = Str.strip nm
       ∧ (∀ l1 k v l2,
            scores = l1 ++ (k, v) :: l2 →
            Forall (λ kv, Str.strip kv.1 ≠ Str.strip k) l2 →
            subjects stu !! Str.strip k = Some v)
       ∧ (∀ k, is_Some (subjects stu !! k) →
               ∃ kv, kv ∈ scores ∧ k = Str.strip kv.1))
  ∧ (∀ inputs : list (string * list (string * Q)),
       Forall (λ call, Forall (λ kv, valid_score kv.2) call.2) inputs →
       id <$> students (add_all inputs GradeManager_init)
         = seqZ 1 (Z.of_nat (length inputs))
       ∧ _next_id (add_all inputs GradeManager_init)
         = Z.of_nat (length inputs) + 1).
Proof.
  split.
  - intros self nm scores Hv. eexists.
    split; [exact (add_student_valid self nm scores Hv)|]. simpl.
    split; [done|]. split; [done|]. split.
    + intros l1 k v l2 -> Hl2. by apply strip_keys_last.
    + intros k Hk. apply dict_update_keys in Hk as [Hk|(kv & Hin & ->)].
      * rewrite lookup_empty in Hk. by destruct Hk.
      * unfold strip_keys in Hin.
        apply list_elem_of_fmap in Hin as (kv' & -> & Hin'). by exists kv'.
  - intros inputs Hv.
    destruct (add_all_ids inputs GradeManager_init Hv) as [Hids Hnext].
    split; [exact Hids|]. rewrite Hnext. simpl. lia.
Qed.

Lemma add_student_valid_spec_witness :
  (∃ stu,
     add_student " Ada " batch_ok GradeManager_init =
       (Ok stu, {| students := [stu]; _next_id := 2 |}, stu)
     ∧ id stu = 1 ∧ name stu = "Ada"
     ∧ (∀ l1 k v l2,
          batch_ok = l1 ++ (k, v) :: l2 →
          Forall (λ kv, Str.strip kv.1 ≠ Str.strip k) l2 →
          subjects stu !! Str.strip k = Some v)
     ∧ (∀ k, is_Some (subjects stu !! k) →
             ∃ kv, kv ∈ batch_ok ∧ k = Str.strip kv.1))
  ∧ (id <$> students (add_all session GradeManager_init) = [1; 2; 3]
     ∧ _next_id (add_all session GradeManager_init) = 4).
Proof.
  split.
  - apply (proj1 add_student_valid_spec GradeManager_init " Ada " batch_ok).
    repeat constructor; by_computation.
  - apply (proj2 add_student_valid_spec session).
    repeat constructor; by_computation.
Defined.

(** ** GradeManager.delete *)

Lemma filter_all {A : Type} (P : A → Prop) `{∀ x, Decision (P x)} (l : list A) :
  Forall P l → filter P l = l.
Proof.
  induction 1 as [|x l Hx Hl IH]; [done|].
  rewrite filter_cons_True by done. by rewrite IH.
Qed.

Lemma delete_unique (student_id : Z) (l : list Student) :
  NoDup (id <$> l) →
  filter (λ s, id s ≠ student_id) l = remove_first student_id l.
Proof.
  induction l as [|s l IH]; intros Hnd; [done|].
  rewrite fmap_cons in Hnd. apply NoDup_cons in Hnd as [Hs Hnd].
  cbn [remove_first]. destruct (decide (id s = student_id)) as [<-|Hne].
  - rewrite filter_cons_False by (intros Hc; by apply Hc).
    apply filter_all. apply Forall_forall. intros s' Hin Heq.
    apply Hs. rewrite <- Heq. by apply list_elem_of_fmap_2.
  - rewrite filter_cons_True by done. by rewrite (IH Hnd).
Qed.

Lemma delete_result (student_id : Z) (self : GradeManager) :
  (delete student_id self).1 = true ↔ ∃ s, s ∈ students self ∧ id s = student_id.
Proof.
  unfold delete. cbn [fst students]. rewrite bool_decide_eq_true. split.
  - intros Hlt.
    destruct (decide (Forall (λ s, id s ≠ student_id) (students self)))
      as [Hall|Hex].
    + rewrite (filter_all _ _ Hall) in Hlt. lia.
    + apply not_Forall_Exists in Hex; [|apply _].
      apply Exists_exists in Hex as (s & Hin & Hs). simpl in Hs.
      exists s. split; [done|]. by destruct (decide (id s = student_id)).
  - intros (s & Hin & Hs). apply (length_filter_lt _ _ s Hin). by intros Hc.
Qed.

(** C9, as stated, fails: a file may give two records the same id, and then
    [delete] removes both, not only the first. *)
Lemma delete_removes_every_match :
  load "grades.json" disk_twins GradeManager_init = (Ok tt, twins)
  ∧ delete 1 twins = (true, {| students := []; _next_id := 2 |})
  ∧ students (delete 1 twins).2 ≠ remove_first 1 (students twins).
Proof.
  split; [reflexivity|]. split; [reflexivity|]. by_computation.
Qed.

(** C9, amended. [delete] removes every record whose id matches, keeps the
    others in their order and leaves [_next_id] alone; it returns true
    exactly when some record had the id. When no record has the id it
    returns false and the manager is unchanged. When the ids of the
    collection are pairwise distinct, what it removes is the first record
    whose id matches. *)
Theorem delete_spec (student_id : Z) (self : GradeManager) :
  _next_id (delete student_id self).2 = _next_id self
  ∧ students (delete student_id self).2
    = filter (λ s, id s ≠ student_id) (students self)
  ∧ ((delete student_id self).1 = true
     ↔ ∃ s, s ∈ students self ∧ id s = student_id)
  ∧ ((∀ s, s ∈ students self → id s ≠ student_id) →
     delete student_id self = (false, self))
  ∧ (NoDup (id <$> students self) →
     students (delete student_id self).2
     = remove_first student_id (students self)).
Proof.
  split; [done|]. split; [done|]. split; [apply delete_result|]. split.
  - intros Hno. pose proof (delete_result student_id self) as Hres.
    destruct (delete student_id self) as [b self'] eqn:Hdel.
    assert (b = false) as ->.
    { destruct b; [|done]. destruct (proj1 Hres eq_refl) as (s & Hin & Hs).
      by destruct (Hno s Hin). }
    f_equal. unfold delete in Hdel. injection Hdel as _ <-.
    rewrite filter_all by (by apply Forall_forall). by destruct self.
  - apply delete_unique.
Qed.

Lemma delete_spec_witness :
  delete 9 class_of_three = (false, class_of_three)
  ∧ students (delete 2 class_of_three).2 = remove_first 2 (students class_of_three).
Proof.
  split.
  - apply (proj1 (proj2 (proj2 (proj2 (delete_spec 9 class_of_three))))).
    apply Forall_forall.
    repeat (constructor; [by_computation|]). constructor.
  - apply (proj2 (proj2 (proj2 (proj2 (delete_spec 2 class_of_three))))).
    apply (bool_decide_unpack _). by vm_compute.
Defined.

(** After deleting id 2 a new record gets id 4, not 2. *)
Example deleted_id_not_reused :
  id <$> students (add_student "Ed" [] (delete 2 class_of_three).2).1.2 = [1; 3; 4].
Proof. reflexivity. Qed.

(** ** GradeManager.load and GradeManager.save *)

Lemma py_max_ge (x : Z) (xs : list Z) : x ≤ py_max x xs.
Proof.
  revert x. induction xs as [|y xs IH]; intros x; [done|].
  change (py_max x (y :: xs)) with (py_max (x `max` y) xs).
  specialize (IH (x `max` y)). lia.
Qed.

Lemma py_max_upper (x : Z) (xs : list Z) (y : Z) :
  y ∈ x :: xs → y ≤ py_max x xs.
Proof.
  revert x. induction xs as [|z xs IH]; intros x Hy.
  - apply list_elem_of_singleton in Hy as ->. done.
  - change (py_max x (z :: xs)) with (py_max (x `max` z) xs).
    apply elem_of_cons in Hy as [->|Hy].
    + pose proof (py_max_ge (x `max` z) xs). lia.
    + apply elem_of_cons in Hy as [->|Hy].
      * pose proof (py_max_ge (x `max` z) xs). lia.
      * apply IH. by apply list_elem_of_further.
Qed.

Lemma py_max_elem (x : Z) (xs : list Z) : py_max x xs ∈ x :: xs.
Proof.
  revert x. induction xs as [|z xs IH]; intros x.
  - apply list_elem_of_here.
  - change (py_max x (z :: xs)) with (py_max (x `max` z) xs).
    specialize (IH (x `max` z)).
    apply elem_of_cons in IH as [Heq|Hin].
    + rewrite Heq. destruct (Z.max_spec x z) as [[_ ->]|[_ ->]].
      * apply list_elem_of_further, list_elem_of_here.
      * apply list_elem_of_here.
    + by do 2 apply list_elem_of_further.
Qed.

Lemma load_missing (file : string) (fs : filesystem) (self : GradeManager) :
  fs !! file = None → load file fs self = (Ok tt, self).
Proof. intros H. unfold load. by rewrite H. Qed.

Lemma load_array (file : string) (fs : filesystem) (self : GradeManager)
    (items : list json) (studs : list Student) :
  fs !! file = Some (Document (JArr items)) →
  traverse from_dict items = Ok studs →
  load file fs self =
    (Ok tt,
     {| students := studs;
        _next_id := match studs with
                    | [] => _next_id self
                    | s :: rest => py_max (id s) (id <$> rest) + 1
                    end |}).
Proof.
  intros Hfile Hitems. unfold load. rewrite Hfile. cbn. rewrite Hitems.
  by destruct studs.
Qed.

(** C2, as stated, fails: on a manager that holds records, [load] of a
    missing file returns and the records are still there. *)
Lemma load_missing_keeps_records :
  (∅ : filesystem) !! "grades.json" = None
  ∧ load "grades.json" ∅ class_of_three = (Ok tt, class_of_three)
  ∧ students (load "grades.json" ∅ class_of_three).2 ≠ [].
Proof. split; [reflexivity|]. split; [reflexivity|]. by_computation. Qed.

(** C2, amended. [load] of a path with no file returns without an exception
    and leaves the manager as it was, records and [_next_id]; so the
    collection is empty afterwards when it was empty before, as it is in a
    new manager. *)
Theorem load_missing_file (file : string) (fs : filesystem) (self : GradeManager) :
  fs !! file = None →
  load file fs self = (Ok tt, self)
  ∧ (students self = [] → students (load file fs self).2 = []).
Proof.
  intros H. rewrite (load_missing file fs self H). by split.
Qed.

Lemma load_missing_file_witness :
  load "marks.json" disk_twins GradeManager_init = (Ok tt, GradeManager_init)
  ∧ (students GradeManager_init = [] →
     students (load "marks.json" disk_twins GradeManager_init).2 = []).
Proof.
  apply (load_missing_file "marks.json" disk_twins GradeManager_init).
  reflexivity.
Defined.

(** C3, as stated, fails: after an empty array is loaded into a manager that
    has given ids before, [_next_id] is what it was, not 1. *)
Lemma load_no_records_keeps_next_id :
  disk_no_records !! "grades.json" = Some (Document (JArr []))
  ∧ traverse from_dict [] = Ok []
  ∧ load "grades.json" disk_no_records class_of_three
    = (Ok tt, {| students := []; _next_id := 4 |})
  ∧ _next_id (load "grades.json" disk_no_records class_of_three).2 ≠ 1.
Proof. do 3 (split; [reflexivity|]). by_computation. Qed.

(** C3, amended. [load] of a file that holds a JSON array of records
    replaces the collection with the deserialized records, in order. When
    records were loaded, [_next_id] becomes one past the largest loaded id;
    when the array is empty, [_next_id] stays what it was (1 in a new
    manager). *)
Theorem load_replaces_collection (file : string) (fs : filesystem)
    (self : GradeManager) (items : list json) (studs : list Student) :
  fs !! file = Some (Document (JArr items)) →
  traverse from_dict items = Ok studs →
  ∃ self', load file fs self = (Ok tt, self')
    ∧ students self' = studs
    ∧ (studs = [] → _next_id self' = _next_id self)
    ∧ (studs ≠ [] →
       (∀ s, s ∈ studs → id s < _next_id self')
       ∧ ∃ s, s ∈ studs ∧ _next_id self' = id s + 1).
Proof.
  intros Hfile Hitems. eexists.
  split; [exact (load_array file fs self items studs Hfile Hitems)|].
  cbn [students _next_id]. split; [done|]. split; [by intros ->|].
  destruct studs as [|s rest]; [done|]. intros _. split.
  - intros s' Hin.
    pose proof (py_max_upper (id s) (id <$> rest) (id s')) as Hle.
    rewrite <- fmap_cons in Hle.
    specialize (Hle (list_elem_of_fmap_2 id _ _ Hin)). lia.
  - pose proof (py_max_elem (id s) (id <$> rest)) as Hin.
    rewrite <- fmap_cons in Hin.
    apply list_elem_of_fmap in Hin as (s' & Heq & Hin').
    exists s'. split; [done|]. by rewrite Heq.
Qed.

Lemma load_replaces_collection_witness :
  ∃ self', load "grades.json" disk_twins class_of_three = (Ok tt, self')
    ∧ students self' = students twins
    ∧ (students twins = [] → _next_id self' = _next_id class_of_three)
    ∧ (students twins ≠ [] →
       (∀ s, s ∈ students twins → id s < _next_id self')
       ∧ ∃ s, s ∈ students twins ∧ _next_id self' = id s + 1).
Proof.
  apply (load_replaces_collection "grades.json" disk_twins class_of_three
           [JObj [("id", JInt 1); ("name", JStr "Ann")];
            JObj [("name", JStr " Ben "); ("id", JInt 1);
                  ("subjects", JObj [("Math", JNum 40)])]]).
  - reflexivity.
  - reflexivity.
Defined.

(** A new manager that loads an empty array still starts its ids at 1. *)
Example load_no_records_fresh :
  load "grades.json" disk_no_records GradeManager_init = (Ok tt, GradeManager_init).
Proof. reflexivity. Qed.

(** *** Round trip through a file *)

Lemma as_int_inject_Z (z : Z) : as_int (JInt z) = Ok z.
Proof. done. Qed.

Lemma traverse_numbers (l : list (string * Q)) :
  traverse (λ kv : string * json, q ← as_number kv.2; Ok (kv.1, q))
    ((λ kv : string * Q, (kv.1, JNum kv.2)) <$> l) = Ok l.
Proof.
  induction l as [|[k v] l IH]; [done|].
  rewrite fmap_cons. cbn. cbn in IH. by rewrite IH.
Qed.

Lemma dict_update_NoDup (d : gmap string Q) (l : list (string * Q))
    (k : string) (v : Q) :
  NoDup l.*1 → (k, v) ∈ l → dict_update d l !! k = Some v.
Proof.
  intros Hnd Hin. apply list_elem_of_split in Hin as (l1 & l2 & ->).
  apply dict_update_last.
  rewrite fmap_app, fmap_cons in Hnd.
  apply NoDup_app in Hnd as (_ & _ & Hnd). apply NoDup_cons in Hnd as [Hk _].
  apply Forall_forall. intros kv Hkv Heq. apply Hk. simpl. rewrite <- Heq.
  by apply list_elem_of_fmap_2.
Qed.

Lemma dict_of_items_map_to_list (m : gmap string Q) :
  dict_of_items (map_to_list m) = m.
Proof.
  apply map_eq. intros k. destruct (m !! k) as [v|] eqn:Hk.
  - apply dict_update_NoDup; [apply NoDup_fst_map_to_list|].
    by apply elem_of_map_to_list.
  - apply eq_None_not_Some. intros Hs.
    apply dict_update_keys in Hs as [Hs|([k' v'] & Hin & ->)].
    + rewrite lookup_empty in Hs. by destruct Hs.
    + apply elem_of_map_to_list in Hin. simpl in Hk. congruence.
Qed.

Lemma to_dict_fields (s : Student) :
  getitem (to_dict s) "id" = Ok (JInt (id s))
  ∧ getitem (to_dict s) "name" = Ok (JStr (name s))
  ∧ get (to_dict s) "subjects" (JObj [])
    = Ok (JObj ((λ kv, (kv.1, JNum kv.2)) <$> map_to_list (subjects s))).
Proof. by repeat split. Qed.

Lemma as_scores_subjects (m : gmap string Q) :
  as_scores (JObj ((λ kv, (kv.1, JNum kv.2)) <$> map_to_list m)) = Ok m.
Proof.
  unfold as_scores. rewrite traverse_numbers. cbn.
  by rewrite dict_of_items_map_to_list.
Qed.

Lemma from_dict_to_dict (s : Student) :
  Str.trimmed (name s) → from_dict (to_dict s) = Ok s.
Proof.
  intros Hname. unfold from_dict.
  destruct (to_dict_fields s) as (-> & -> & ->).
  cbn [mbind result_bind strip_value]. rewrite Hname.
  cbn [mbind result_bind]. rewrite as_int_inject_Z, as_scores_subjects.
  by destruct s.
Qed.

Lemma traverse_from_dict (l : list Student) :
  Forall (λ s, Str.trimmed (name s)) l →
  traverse from_dict (to_dict <$> l) = Ok l.
Proof.
  induction 1 as [|s l Hs Hl IH]; [done|].
  rewrite fmap_cons. cbn [traverse]. rewrite (from_dict_to_dict s Hs).
  cbn. cbn in IH. by rewrite IH.
Qed.

(** C4. Saving a collection to a path and loading that path, into any
    manager, gives back the same records: the same number of them, in the
    same order, each with the id, the name and the subject-to-score mapping
    it had. The names are taken as [Student.__init__] makes them, without
    leading or trailing whitespace, which holds in every manager a session
    reaches ([reachable_names_trimmed]). *)
Theorem save_load_roundtrip (self other : GradeManager) (fs : filesystem)
    (file : string) :
  names_trimmed self →
  ∃ loaded, load file (save file self fs) other = (Ok tt, loaded)
    ∧ students loaded = students self
    ∧ length (students loaded) = length (students self)
    ∧ ∀ i s, students self !! i = Some s →
        ∃ s', students loaded !! i = Some s'
          ∧ id s' = id s ∧ name s' = name s ∧ subjects s' = subjects s.
Proof.
  intros Hnames. eexists. split.
  - apply (load_array file _ other (to_dict <$> students self) (students self)).
    + unfold save, json_dumps. apply lookup_insert_eq.
    + by apply traverse_from_dict.
  - cbn [students]. split; [done|]. split; [done|].
    intros i s Hi. by exists s.
Qed.

Lemma save_load_roundtrip_witness :
  ∃ loaded,
    load "grades.json" (save "grades.json" class_of_three disk_twins) twins
    = (Ok tt, loaded)
    ∧ students loaded = students class_of_three
    ∧ length (students loaded) = length (students class_of_three)
    ∧ ∀ i s, students class_of_three !! i = Some s →
        ∃ s', students loaded !! i = Some s'
          ∧ id s' = id s ∧ name s' = name s ∧ subjects s' = subjects s.
Proof.
  apply (save_load_roundtrip class_of_three twins disk_twins "grades.json").
  repeat (constructor; [reflexivity|]). constructor.
Defined.

(** The end-to-end run of the specification: two adds, a save, a load into a
    new manager, a delete and two lookups. *)
Example end_to_end :
  let gm := add_all [("Ada", [("Math", 95%Q); ("History", 88%Q)]); ("Bo", [])]
              GradeManager_init in
  let gm' := (load "grades.json" (save "grades.json" gm ∅) GradeManager_init).2 in
  id <$> students gm = [1; 2]
  ∧ students gm' = students gm
  ∧ (delete 1 gm').1 = true
  ∧ find 1 (delete 1 gm').2 = None
  ∧ find 2 (delete 1 gm').2 = Some {| id := 2; name := "Bo"; subjects := ∅ |}.
Proof. by repeat split. Qed.

(** ** What every session keeps true *)

Lemma set_score_fields (subject : string) (score : Q) (s : Student) :
  id (set_score subject score s).2 = id s
  ∧ name (set_score subject score s).2 = name s.
Proof. unfold set_score. by destruct (negb (in_range score)). Qed.

Lemma set_scores_fields (items : list (string * Q)) (s : Student) :
  id (set_scores items s).2 = id s ∧ name (set_scores items s).2 = name s.
Proof.
  revert s. induction items as [|[k v] items IH]; intros s; [done|].
  cbn [set_scores]. pose proof (set_score_fields k v s) as [Hid Hname].
  destruct (set_score k v s) as [[[]|e|] s']; cbn [snd] in *.
  - destruct (IH s') as [-> ->]. by rewrite Hid, Hname.
  - by rewrite Hid, Hname.
  - by rewrite Hid, Hname.
Qed.

(** What [add_student] does to the manager, whatever the scores. *)
Lemma add_student_manager (nm : string) (scores : list (string * Q))
    (self : GradeManager) :
  (add_student nm scores self).1.2 = self
  ∨ ∃ stu, id stu = _next_id self ∧ name stu = Str.strip nm
      ∧ (add_student nm scores self).1.2
        = {| students := students self ++ [stu]; _next_id := _next_id self + 1 |}.
Proof.
  unfold add_student.
  pose proof (set_scores_fields scores (Student_init (_next_id self) nm)) as [Hid Hname].
  destruct (set_scores scores _) as [[[]|e|] stu]; [|by left|by left].
  right. by exists stu.
Qed.

Lemma update_first_fields (student_id : Z) (subject : string) (score : Q)
    (l : list Student) (r : result unit) (l' : list Student) :
  update_first student_id subject score l = Some (r, l') →
  id <$> l' = id <$> l ∧ name <$> l' = name <$> l.
Proof.
  revert r l'. induction l as [|s l IH]; intros r l' H; [done|].
  cbn [update_first] in H. destruct (decide (id s = student_id)).
  - injection H as _ <-. rewrite !fmap_cons.
    by destruct (set_score_fields subject score s) as [-> ->].
  - destruct (update_first student_id subject score l) as [[r0 l0]|]; [|done].
    injection H as _ <-. destruct (IH r0 l0 eq_refl) as [Hid Hname].
    rewrite !fmap_cons. cbn [snd]. by rewrite Hid, Hname.
Qed.

Lemma update_score_fields (student_id : Z) (subject : string) (score : Q)
    (self : GradeManager) :
  id <$> students (update_score student_id subject score self).2
    = id <$> students self
  ∧ name <$> students (update_score student_id subject score self).2
    = name <$> students self
  ∧ _next_id (update_score student_id subject score self).2 = _next_id self.
Proof.
  unfold update_score.
  destruct (update_first student_id subject score (students self))
    as [[r l]|] eqn:H; [|done].
  cbn [snd students _next_id].
  by destruct (update_first_fields _ _ _ _ _ _ H) as [-> ->].
Qed.

Lemma from_dict_name (data : json) (s : Student) :
  from_dict data = Ok s → Str.trimmed (name s).
Proof.
  unfold from_dict. intros H.
  repeat match type of H with
         | (?r ≫= _) = _ =>
             destruct r eqn:?; cbn [mbind result_bind] in H;
               [|discriminate|discriminate]
         end.
  injection H as <-. cbn [name].
  match goal with
  | Hs : strip_value ?v = Ok _ |- _ =>
      destruct v; try discriminate; injection Hs as <-
  end.
  apply StrFacts.strip_trimmed.
Qed.

Lemma traverse_Forall {A B : Type} (f : A → result B) (P : B → Prop)
    (l : list A) (ys : list B) :
  (∀ x y, f x = Ok y → P y) → traverse f l = Ok ys → Forall P ys.
Proof.
  intros Hf. revert ys. induction l as [|x l IH]; intros ys H.
  - injection H as <-. constructor.
  - cbn [traverse] in H. destruct (f x) as [y|e|] eqn:Hx; [|done|done].
    cbn [mbind result_bind] in H.
    destruct (traverse f l) as [ys'|e|]; [|done|done].
    injection H as <-. constructor; [by eapply Hf|by apply IH].
Qed.

(** What [load] does to the manager, whatever the file. *)
Lemma load_manager (file : string) (fs : filesystem) (self : GradeManager) :
  (load file fs self).2 = self
  ∨ (load file fs self).2 = {| students := []; _next_id := _next_id self |}
  ∨ ∃ s rest,
      Forall (λ s, Str.trimmed (name s)) (s :: rest)
      ∧ (load file fs self).2
        = {| students := s :: rest; _next_id := py_max (id s) (id <$> rest) + 1 |}.
Proof.
  unfold load. destruct (fs !! file) as [t|]; [|by left].
  destruct (_ ≫= _) as [[|s rest]|e|] eqn:H; [by right; left| |by left|by left].
  right; right. exists s, rest. split; [|done].
  destruct (json_loads t) as [data|e|]; [|done|done]. cbn [mbind result_bind] in H.
  destruct (iterate data) as [ds|e|]; [|done|done]. cbn [mbind result_bind] in H.
  by apply (traverse_Forall from_dict _ ds _ from_dict_name).
Qed.

Lemma names_trimmed_fmap (self : GradeManager) :
  names_trimmed self ↔ Forall Str.trimmed (name <$> students self).
Proof. unfold names_trimmed. by rewrite Forall_fmap. Qed.

Lemma ids_below_next_fmap (self : GradeManager) :
  ids_below_next self ↔ Forall (λ i, i < _next_id self) (id <$> students self).
Proof. unfold ids_below_next. by rewrite Forall_fmap. Qed.

Lemma Forall_filter_keep {A : Type} (P Q : A → Prop) `{∀ x, Decision (Q x)}
    (l : list A) :
  Forall P l → Forall P (filter Q l).
Proof.
  rewrite !Forall_forall. intros HP x Hx.
  apply list_elem_of_filter in Hx as [_ Hx]. by apply HP.
Qed.

Lemma step_names_trimmed (self self' : GradeManager) :
  step self self' → names_trimmed self → names_trimmed self'.
Proof.
  intros Hstep Hinv. destruct Hstep as [nm scores|sid subject score|sid|file fs].
  - destruct (add_student_manager nm scores self) as [->|(stu & _ & Hname & ->)];
      [done|].
    unfold names_trimmed. cbn [students]. apply Forall_app. split; [done|].
    constructor; [|constructor]. cbn beta. rewrite Hname.
    apply StrFacts.strip_trimmed.
  - apply names_trimmed_fmap.
    destruct (update_score_fields sid subject score self) as (_ & -> & _).
    by apply names_trimmed_fmap.
  - unfold delete, names_trimmed. cbn [snd students].
    by apply Forall_filter_keep.
  - destruct (load_manager file fs self) as [->|[->|(s & rest & Hall & ->)]];
      [done|constructor|done].
Qed.

Lemma step_ids_below_next (self self' : GradeManager) :
  step self self' → ids_below_next self → ids_below_next self'.
Proof.
  intros Hstep Hinv. destruct Hstep as [nm scores|sid subject score|sid|file fs].
  - destruct (add_student_manager nm scores self) as [->|(stu & Hid & _ & ->)];
      [done|].
    unfold ids_below_next in *. cbn [students _next_id]. apply Forall_app. split.
    + eapply Forall_impl; [exact Hinv|]. cbn beta. lia.
    + constructor; [|constructor]. cbn beta. lia.
  - apply ids_below_next_fmap.
    destruct (update_score_fields sid subject score self) as (-> & _ & ->).
    by apply ids_below_next_fmap.
  - unfold delete, ids_below_next in *. cbn [snd students _next_id].
    by apply Forall_filter_keep.
  - destruct (load_manager file fs self) as [->|[->|(s & rest & _ & ->)]];
      [done|constructor|].
    unfold ids_below_next. cbn [students _next_id].
    apply Forall_forall. intros s' Hin.
    pose proof (py_max_upper (id s) (id <$> rest) (id s')) as Hle.
    rewrite <- fmap_cons in Hle.
    specialize (Hle (list_elem_of_fmap_2 id _ _ Hin)). lia.
Qed.

(** X13. In every manager a session reaches, whatever was added, updated,
    deleted or loaded, each name is without whitespace at either end. *)
Theorem reachable_names_trimmed (self : GradeManager) :
  reachable self → names_trimmed self.
Proof.
  unfold reachable. revert self.
  apply (rtc_ind_r (R := step) names_trimmed GradeManager_init); [constructor|].
  intros m1 m2 _ Hstep IH. by apply (step_names_trimmed m1 m2).
Qed.

(** In every manager a session reaches, each id is below [_next_id]: the
    next record gets an id that no record of the collection has. *)
Theorem reachable_ids_below_next (self : GradeManager) :
  reachable self → ids_below_next self.
Proof.
  unfold reachable. revert self.
  apply (rtc_ind_r (R := step) ids_below_next GradeManager_init); [constructor|].
  intros m1 m2 _ Hstep IH. by apply (step_ids_below_next m1 m2).
Qed.

(** Duplicate ids are reachable: [twins] comes from one [load]. *)
Example twins_reachable : reachable twins.
Proof.
  apply (rtc_l _ _ (load "grades.json" disk_twins GradeManager_init).2);
    [apply step_load|]. apply rtc_refl.
Qed.


(** * Further properties of the code *)

(** ** GradeManager.find *)

Lemma head_filter_split {A : Type} (P : A → Prop) `{∀ x, Decision (P x)}
    (l : list A) (x : A) :
  head (filter P l) = Some x
  ↔ ∃ l1 l2, l = l1 ++ x :: l2 ∧ P x ∧ Forall (λ y, ¬ P y) l1.
Proof.
  induction l as [|y l IH].
  - split; [done|]. intros (l1 & l2 & Hl & _). by destruct l1.
  - destruct (decide (P y)) as [Hy|Hy].
    + rewrite filter_cons_True by done. cbn [head]. split.
      * intros [= ->]. exists [], l. by repeat split.
      * intros (l1 & l2 & Hl & Hx & Hl1). destruct l1 as [|z l1].
        -- by injection Hl as -> _.
        -- injection Hl as -> _. apply Forall_cons in Hl1 as [Hz _]. done.
    + rewrite filter_cons_False by done. rewrite IH. split.
      * intros (l1 & l2 & -> & Hx & Hl1). exists (y :: l1), l2.
        split; [done|]. split; [done|]. by constructor.
      * intros (l1 & l2 & Hl & Hx & Hl1). destruct l1 as [|z l1].
        -- injection Hl as -> _. done.
        -- injection Hl as -> ->. apply Forall_cons in Hl1 as [_ Hl1].
           by exists l1, l2.
Qed.

Lemma head_filter_None {A : Type} (P : A → Prop) `{∀ x, Decision (P x)}
    (l : list A) :
  head (filter P l) = None ↔ Forall (λ y, ¬ P y) l.
Proof.
  induction l as [|y l IH]; [by split; [constructor|]|].
  destruct (decide (P y)) as [Hy|Hy].
  - rewrite filter_cons_True by done. split; [done|].
    intros Hall. by apply Forall_cons in Hall as [? _].
  - rewrite filter_cons_False by done. rewrite IH. split.
    + by constructor.
    + intros Hall. by apply Forall_cons in Hall as [_ ?].
Qed.

(** X1. [find] returns the first record of the collection whose id is the
    one asked for, and None exactly when no record has it. *)
Theorem find_first (student_id : Z) (self : GradeManager) :
  (find student_id self = None ↔ ∀ s, s ∈ students self → id s ≠ student_id)
  ∧ (∀ s, find student_id self = Some s
          ↔ ∃ l1 l2, students self = l1 ++ s :: l2 ∧ id s = student_id
               ∧ Forall (λ s', id s' ≠ student_id) l1).
Proof.
  unfold find. split.
  - rewrite (head_filter_None (λ s, id s = student_id)). by rewrite Forall_forall.
  - intros s. apply (head_filter_split (λ s, id s = student_id)).
Qed.

Lemma add_student_ok (nm : string) (scores : list (string * Q))
    (self self' : GradeManager) (stu loc : Student) :
  add_student nm scores self = (Ok stu, self', loc) →
  id stu = _next_id self ∧ name stu = Str.strip nm ∧ loc = stu
  ∧ self' = {| students := students self ++ [stu]; _next_id := _next_id self + 1 |}.
Proof.
  unfold add_student.
  pose proof (set_scores_fields scores (Student_init (_next_id self) nm)) as [Hid Hname].
  destruct (set_scores scores _) as [[[]|e|] stu']; [|done|done].
  intros [= <- <- <-]. done.
Qed.

Lemma find_app_new (student_id : Z) (l : list Student) (stu : Student) :
  Forall (λ s, id s < id stu) l →
  head (filter (λ s, id s = student_id) (l ++ [stu]))
  = if decide (student_id = id stu) then Some stu
    else head (filter (λ s, id s = student_id) l).
Proof.
  intros Hl. rewrite filter_app. destruct (decide (student_id = id stu)) as [->|Hne].
  - rewrite filter_cons_True by done.
    replace (filter (λ s, id s = id stu) l) with (@nil Student); [done|].
    symmetry. apply head_None. apply head_filter_None.
    eapply Forall_impl; [exact Hl|]. cbn beta. lia.
  - rewrite filter_cons_False by done. by rewrite filter_nil, app_nil_r.
Qed.

(** X2. In a manager whose ids are all below [_next_id], a successful
    [add_student] makes the new record the one [find] returns for its id,
    and [find] answers for every other id as before. *)
Theorem find_after_add (self self' : GradeManager) (nm : string)
    (scores : list (string * Q)) (stu loc : Student) :
  ids_below_next self →
  add_student nm scores self = (Ok stu, self', loc) →
  find (id stu) self' = Some stu
  ∧ ∀ student_id, student_id ≠ id stu →
      find student_id self' = find student_id self.
Proof.
  intros Hinv Hadd.
  destruct (add_student_ok _ _ _ _ _ _ Hadd) as (Hid & _ & _ & ->).
  assert (Forall (λ s, id s < id stu) (students self)) as Hlt.
  { rewrite Hid. exact Hinv. }
  unfold find. cbn [students]. split.
  - rewrite (find_app_new _ _ _ Hlt). by rewrite decide_True.
  - intros sid Hne. rewrite (find_app_new _ _ _ Hlt). by rewrite decide_False.
Qed.

Lemma find_after_add_witness :
  let stu := {| id := 4; name := "Ed"; subjects := {[ "PE" := 70%Q ]} |} in
  find (id stu) {| students := students class_of_three ++ [stu]; _next_id := 5 |}
  = Some stu
  ∧ ∀ student_id, student_id ≠ id stu →
      find student_id {| students := students class_of_three ++ [stu]; _next_id := 5 |}
      = find student_id class_of_three.
Proof.
  apply (find_after_add class_of_three _ " Ed " [(" PE", 70%Q)] _
           {| id := 4; name := "Ed"; subjects := {[ "PE" := 70%Q ]} |}).
  - repeat (constructor; [by_computation|]). constructor.
  - reflexivity.
Defined.

(** X3. After [delete], [find] has no record for the deleted id and answers
    for every other id as before. *)
Theorem find_after_delete (student_id : Z) (self : GradeManager) :
  find student_id (delete student_id self).2 = None
  ∧ ∀ other, other ≠ student_id →
      find other (delete student_id self).2 = find other self.
Proof.
  unfold find, delete. cbn [snd students]. split.
  - apply head_filter_None. apply Forall_forall. intros s Hs.
    apply list_elem_of_filter in Hs as [Hs _]. by intros Heq.
  - intros other Hne. f_equal. apply list_filter_filter_l.
    intros s Hs. congruence.
Qed.

Lemma find_after_delete_witness :
  find 2 (delete 2 class_of_three).2 = None
  ∧ ∀ other, other ≠ 2 →
      find other (delete 2 class_of_three).2 = find other class_of_three.
Proof. exact (find_after_delete 2 class_of_three). Defined.

(** X4. Deleting the same id again finds nothing: the second [delete]
    returns false and changes nothing. *)
Theorem delete_twice (student_id : Z) (self : GradeManager) :
  delete student_id (delete student_id self).2
  = (false, (delete student_id self).2).
Proof.
  unfold delete at 1. cbn [students _next_id].
  assert (filter (λ s, id s ≠ student_id) (students (delete student_id self).2)
          = students (delete student_id self).2) as Hf.
  { unfold delete. cbn [snd students]. by apply list_filter_filter_l. }
  rewrite Hf. rewrite bool_decide_false by lia. by destruct self.
Qed.

(** ** Student.set_score, again *)



(** ** Student.from_dict and Student.to_dict *)

(** X7. What [from_dict] raises: TypeError when the value is not a dict,
    KeyError for a dict without "id", then for one without "name", and
    AttributeError when the name is not a string (it has no [strip]). *)
Theorem from_dict_errors :
  (∀ data, (∀ ms, data ≠ JObj ms) → from_dict data = Raise TypeError)
  ∧ (∀ ms, member "id" ms = None →
       from_dict (JObj ms) = Raise (KeyError "id"))
  ∧ (∀ ms v, member "id" ms = Some v → member "name" ms = None →
       from_dict (JObj ms) = Raise (KeyError "name"))
  ∧ (∀ ms v n, member "id" ms = Some v → member "name" ms = Some n →
       (∀ s, n ≠ JStr s) → from_dict (JObj ms) = Raise AttributeError).
Proof.
  unfold from_dict. repeat split.
  - intros data Hd. destruct data; try done. by destruct (Hd members).
  - intros ms Hid. cbn [getitem]. by rewrite Hid.
  - intros ms v Hid Hname. cbn [getitem]. by rewrite Hid, Hname.
  - intros ms v n Hid Hname Hn. cbn [getitem]. rewrite Hid, Hname.
    cbn [mbind result_bind]. destruct n; try done. by destruct (Hn s).
Qed.

Lemma from_dict_errors_witness :
  from_dict (JArr []) = Raise TypeError
  ∧ from_dict (JObj [("name", JStr "Ann")]) = Raise (KeyError "id")
  ∧ from_dict (JObj [("id", JInt 1)]) = Raise (KeyError "name")
  ∧ from_dict (JObj [("id", JInt 1); ("name", JNum 5)]) = Raise AttributeError.
Proof.
  refine (conj _ (conj _ (conj _ _))).
  - apply (proj1 from_dict_errors). by intros ms.
  - apply (proj1 (proj2 from_dict_errors)). reflexivity.
  - apply (proj1 (proj2 (proj2 from_dict_errors)) _ (JInt 1)); reflexivity.
  - apply (proj2 (proj2 (proj2 from_dict_errors)) _ (JInt 1) (JNum 5));
      [reflexivity|reflexivity|by intros s].
Defined.




(** A record read from a file can hold a score that [set_score] refuses. *)
Example from_dict_out_of_range :
  from_dict (JObj [("name", JStr " Cy "); ("id", JInt 7);
                   ("subjects", JObj [("Art", JNum 250)])])
  = Ok {| id := 7; name := "Cy"; subjects := {[ "Art" := 250%Q ]} |}.
Proof. reflexivity. Qed.

Lemma from_dict_to_dict_strip (s : Student) :
  from_dict (to_dict s)
  = Ok {| id := id s; name := Str.strip (name s); subjects := subjects s |}.
Proof.
  unfold from_dict. destruct (to_dict_fields s) as (-> & -> & ->).
  cbn [mbind result_bind strip_value].
  by rewrite as_int_inject_Z, as_scores_subjects.
Qed.

(** X9. Writing a record with [to_dict] and reading it with [from_dict]
    gives the record with its name trimmed; a record that [from_dict] has
    produced comes back exactly, so further cycles change nothing. *)
Theorem to_dict_from_dict_stable :
  (∀ s, from_dict (to_dict s)
        = Ok {| id := id s; name := Str.strip (name s); subjects := subjects s |})
  ∧ (∀ data s, from_dict data = Ok s → from_dict (to_dict s) = Ok s).
Proof.
  split; [apply from_dict_to_dict_strip|].
  intros data s H. apply from_dict_to_dict. by apply (from_dict_name data).
Qed.

Lemma to_dict_from_dict_stable_witness :
  from_dict (to_dict {| id := 1; name := "Ben"; subjects := {[ "Math" := 40%Q ]} |})
  = Ok {| id := 1; name := "Ben"; subjects := {[ "Math" := 40%Q ]} |}.
Proof.
  apply (proj2 to_dict_from_dict_stable
           (JObj [("name", JStr " Ben "); ("id", JInt 1);
                  ("subjects", JObj [("Math", JNum 40)])])).
  reflexivity.
Defined.

(** ** GradeManager.load and GradeManager.save, again *)

Lemma traverse_first_failure {A B : Type} (f : A → result B) (pre post : list A)
    (bad : A) (ys : list B) (e : exn) :
  traverse f pre = Ok ys → f bad = Raise e →
  traverse f (pre ++ bad :: post) = Raise e.
Proof.
  revert ys. induction pre as [|x pre IH]; intros ys Hpre Hbad.
  - cbn [app traverse]. by rewrite Hbad.
  - cbn [app traverse] in *. destruct (f x) as [y|e0|]; [|done|done].
    cbn [mbind result_bind] in *.
    destruct (traverse f pre) as [ys'|e0|] eqn:Hys; [|done|done].
    by rewrite (IH ys' eq_refl Hbad).
Qed.

(** X11. What [load] raises while it reads the file and builds the records,
    the manager staying as it was: UnicodeDecodeError when the bytes are no
    text, JSONDecodeError when the text is no JSON document; TypeError when
    the document is a number, a boolean or null; and for an array whose
    earlier elements are records, the exception of the first element that
    [from_dict] refuses. *)
Theorem load_errors (file : string) (fs : filesystem) (self : GradeManager) :
  (fs !! file = Some Undecodable →
   load file fs self = (Raise UnicodeDecodeError, self))
  ∧ (fs !! file = Some Garbled → load file fs self = (Raise JSONDecodeError, self))
  ∧ (∀ doc, fs !! file = Some (Document doc) →
       doc = JNull ∨ (∃ b, doc = JBool b) ∨ (∃ z, doc = JInt z) ∨ (∃ q, doc = JNum q) →
       load file fs self = (Raise TypeError, self))
  ∧ (∀ pre bad post studs e,
       fs !! file = Some (Document (JArr (pre ++ bad :: post))) →
       traverse from_dict pre = Ok studs → from_dict bad = Raise e →
       load file fs self = (Raise e, self)).
Proof.
  unfold load. repeat split.
  - by intros ->.
  - by intros ->.
  - intros doc -> [->|[[b ->]|[[z ->]|[q ->]]]]; done.
  - intros pre bad post studs e -> Hpre Hbad. cbn.
    by rewrite (traverse_first_failure from_dict pre post bad studs e Hpre Hbad).
Qed.

Lemma load_errors_witness :
  load "grades.json" {[ "grades.json" := Undecodable ]} class_of_three
  = (Raise UnicodeDecodeError, class_of_three)
  ∧ load "grades.json" {[ "grades.json" := Garbled ]} class_of_three
    = (Raise JSONDecodeError, class_of_three)
  ∧ load "grades.json" {[ "grades.json" := Document (JInt 3) ]} class_of_three
    = (Raise TypeError, class_of_three)
  ∧ load "grades.json"
      {[ "grades.json" :=
           Document (JArr ([JObj [("id", JInt 1); ("name", JStr "Ann")]]
                           ++ JObj [("id", JInt 2)] :: [JNull])) ]}
      class_of_three
    = (Raise (KeyError "name"), class_of_three).
Proof.
  refine (conj _ (conj _ (conj _ _))).
  - apply (proj1 (load_errors "grades.json" _ class_of_three)). reflexivity.
  - apply (proj1 (proj2 (load_errors "grades.json" _ class_of_three))).
    reflexivity.
  - apply (proj1 (proj2 (proj2 (load_errors "grades.json" _ class_of_three)))
             (JInt 3)); [reflexivity|].
    right. right. left. by exists 3.
  - apply (proj2 (proj2 (proj2 (load_errors "grades.json" _ class_of_three)))
             [JObj [("id", JInt 1); ("name", JStr "Ann")]]
             (JObj [("id", JInt 2)]) [JNull]
             [{| id := 1; name := "Ann"; subjects := ∅ |}]); reflexivity.
Defined.

(** Where the model stops: a float id, even a whole one, is no int id. *)
Example load_float_id_untyped :
  load "grades.json"
    {[ "grades.json" :=
         Document (JArr [JObj [("id", JNum 10000000000000000); ("name", JStr "Ann")]]) ]}
    class_of_three
  = (Untyped, class_of_three).
Proof. reflexivity. Qed.

(** ** Sessions *)

Lemma reachable_names_trimmed_witness : names_trimmed twins.
Proof.
  apply (reachable_names_trimmed twins).
  apply (rtc_l _ _ (load "grades.json" disk_twins GradeManager_init).2);
    [apply step_load|]. apply rtc_refl.
Defined.

Lemma typed_step_step (self self' : GradeManager) :
  typed_step self self' → step self self'.
Proof. intros []; constructor. Qed.

Lemma typed_session_reachable (self : GradeManager) :
  typed_session self → reachable self.
Proof.
  unfold typed_session, reachable.
  induction 1 as [|m1 m2 m3 H12 _ IH]; [apply rtc_refl|].
  eapply rtc_l; [by apply typed_step_step|done].
Qed.

(** X14. Ids are not reused: in every manager reached by adding, updating,
    deleting and loading, where each file loaded is missing, or refused by
    [load] with an exception, or made of records with int ids and numbers
    as scores, the record a successful [add_student] creates has an id that
    no record of the collection has. *)
Theorem add_student_fresh_id (self self' : GradeManager) (nm : string)
    (scores : list (string * Q)) (stu loc : Student) :
  typed_session self →
  add_student nm scores self = (Ok stu, self', loc) →
  id stu ∉ id <$> students self.
Proof.
  intros Hreach Hadd.
  destruct (add_student_ok _ _ _ _ _ _ Hadd) as (Hid & _).
  apply typed_session_reachable, reachable_ids_below_next,
    ids_below_next_fmap in Hreach.
  intros Hin. rewrite Forall_forall in Hreach.
  specialize (Hreach _ Hin). lia.
Qed.

Lemma add_student_fresh_id_witness :
  2 ∉ id <$> students twins.
Proof.
  apply (add_student_fresh_id twins
           {| students := students twins
                          ++ [{| id := 2; name := "Ed"; subjects := ∅ |}];
              _next_id := 3 |}
           "Ed" [] {| id := 2; name := "Ed"; subjects := ∅ |}
           {| id := 2; name := "Ed"; subjects := ∅ |}).
  - apply (rtc_l _ _ (load "grades.json" disk_twins GradeManager_init).2);
      [by apply typed_load|]. apply rtc_refl.
  - reflexivity.
Defined.

Lemma edit_step (self self' : GradeManager) : edit self self' → step self self'.
Proof. intros []; constructor. Qed.

Lemma edited_reachable (self : GradeManager) : edited self → reachable self.
Proof.
  unfold edited, reachable. induction 1 as [|m1 m2 m3 H12 _ IH]; [apply rtc_refl|].
  eapply rtc_l; [by apply edit_step|done].
Qed.

Lemma NoDup_fmap_filter {A B : Type} (f : A → B) (P : A → Prop)
    `{∀ x, Decision (P x)} (l : list A) :
  NoDup (f <$> l) → NoDup (f <$> filter P l).
Proof.
  induction l as [|x l IH]; [done|].
  rewrite fmap_cons. intros Hnd. apply NoDup_cons in Hnd as [Hx Hnd].
  destruct (decide (P x)).
  - rewrite filter_cons_True by done. rewrite fmap_cons.
    apply NoDup_cons. split; [|by apply IH].
    intros Hin. apply Hx. apply list_elem_of_fmap in Hin as (y & -> & Hy).
    apply list_elem_of_filter in Hy as [_ Hy]. by apply list_elem_of_fmap_2.
  - rewrite filter_cons_False by done. by apply IH.
Qed.

Lemma edit_ids_unique (self self' : GradeManager) :
  edit self self' → ids_below_next self → ids_unique self → ids_unique self'.
Proof.
  unfold ids_unique. intros Hedit Hbelow Hnd.
  destruct Hedit as [nm scores|sid subject score|sid].
  - destruct (add_student_manager nm scores self) as [->|(stu & Hid & _ & ->)];
      [done|].
    cbn [students]. rewrite fmap_app. apply NoDup_app. split; [done|].
    split; [|apply NoDup_singleton].
    intros i Hi Hi'. apply list_elem_of_singleton in Hi'. subst i.
    apply ids_below_next_fmap in Hbelow. rewrite Forall_forall in Hbelow.
    specialize (Hbelow _ Hi). simpl in Hbelow. lia.
  - by destruct (update_score_fields sid subject score self) as (-> & _).
  - unfold delete. cbn [snd students]. by apply NoDup_fmap_filter.
Qed.

(** X15. As long as no file is loaded, the ids of the collection are
    pairwise distinct: adding, updating and deleting keep them so. *)
Theorem edited_ids_unique (self : GradeManager) :
  edited self → ids_unique self.
Proof.
  unfold edited. revert self.
  apply (rtc_ind_r (R := edit) ids_unique GradeManager_init);
    [apply NoDup_nil_2|].
  intros m1 m2 Hrtc Hedit IH. apply (edit_ids_unique m1 m2 Hedit); [|done].
  by apply reachable_ids_below_next, edited_reachable.
Qed.

Lemma edited_ids_unique_witness : ids_unique class_of_three.
Proof.
  apply (edited_ids_unique class_of_three).
  unfold class_of_three, session.
  eapply rtc_r; [eapply rtc_r; [eapply rtc_r; [apply rtc_refl|]|]|].
  - apply (edit_add _ " Ada " batch_ok).
  - apply (edit_add _ "Bo" []).
  - apply (edit_add _ "Di" batch_colliding).
Defined.

Lemma set_score_in_range (subject : string) (score : Q) (s : Student) :
  scores_in_range s → scores_in_range (set_score subject score s).2.
Proof.
  intros Hs. unfold set_score. destruct (in_range score) eqn:Hr; [|done].
  cbn [negb snd]. intros k v Hkv. cbn [subjects] in Hkv.
  apply lookup_insert_Some in Hkv as [[_ <-]|[_ Hkv]].
  - by apply in_range_valid.
  - by apply (Hs k v).
Qed.

Lemma set_scores_in_range (items : list (string * Q)) (s : Student) :
  scores_in_range s → scores_in_range (set_scores items s).2.
Proof.
  revert s. induction items as [|[k v] items IH]; intros s Hs; [done|].
  cbn [set_scores]. pose proof (set_score_in_range k v s Hs) as Hs'.
  destruct (set_score k v s) as [[[]|e|] s']; cbn [snd] in *;
    [by apply IH|done|done].
Qed.

Lemma update_first_in_range (student_id : Z) (subject : string) (score : Q)
    (l l' : list Student) (r : result unit) :
  update_first student_id subject score l = Some (r, l') →
  Forall scores_in_range l → Forall scores_in_range l'.
Proof.
  revert r l'. induction l as [|s l IH]; intros r l' H Hall; [done|].
  apply Forall_cons in Hall as [Hs Hall].
  cbn [update_first] in H. destruct (decide (id s = student_id)).
  - injection H as _ <-. constructor; [by apply set_score_in_range|done].
  - destruct (update_first student_id subject score l) as [[r0 l0]|]; [|done].
    injection H as _ <-. constructor; [done|]. by apply (IH r0 l0).
Qed.

Lemma edit_scores_in_range (self self' : GradeManager) :
  edit self self' →
  Forall scores_in_range (students self) → Forall scores_in_range (students self').
Proof.
  intros Hedit Hall. destruct Hedit as [nm scores|sid subject score|sid].
  - unfold add_student.
    pose proof (set_scores_in_range scores (Student_init (_next_id self) nm)) as Hstu.
    destruct (set_scores scores _) as [[[]|e|] stu]; [|done|done].
    cbn [fst snd students]. apply Forall_app. split; [done|].
    constructor; [|constructor]. apply Hstu. intros k v Hkv.
    unfold Student_init in Hkv. cbn [subjects] in Hkv.
    by rewrite lookup_empty in Hkv.
  - unfold update_score.
    destruct (update_first sid subject score (students self)) as [[r l]|] eqn:H;
      [|done].
    cbn [snd students]. by apply (update_first_in_range _ _ _ _ _ _ H).
  - unfold delete. cbn [snd students]. by apply Forall_filter_keep.
Qed.

(** X16. As long as no file is loaded, every score stored in the collection
    lies in [0, 100]: [set_score] is the only way in, for [add_student] and
    for the update of the menu. *)
Theorem edited_scores_in_range (self : GradeManager) :
  edited self → Forall scores_in_range (students self).
Proof.
  unfold edited. revert self.
  apply (rtc_ind_r (R := edit) (λ m, Forall scores_in_range (students m))
           GradeManager_init); [constructor|].
  intros m1 m2 _ Hedit IH. by apply (edit_scores_in_range m1 m2).
Qed.

Lemma edited_scores_in_range_witness :
  Forall scores_in_range (students class_of_three).
Proof.
  apply (edited_scores_in_range class_of_three).
  unfold class_of_three, session.
  eapply rtc_r; [eapply rtc_r; [eapply rtc_r; [apply rtc_refl|]|]|].
  - apply (edit_add _ " Ada " batch_ok).
  - apply (edit_add _ "Bo" []).
  - apply (edit_add _ "Di" batch_colliding).
Defined.

(** A loaded file can break both: [twins] is reachable, its ids are not
    distinct, and a loaded score can be out of range. *)
Example load_breaks_uniqueness : reachable twins ∧ ¬ ids_unique twins.
Proof.
  split; [apply twins_reachable|]. unfold ids_unique. intros Hnd.
  apply (bool_decide_pack _) in Hnd. by vm_compute in Hnd.
Qed.

(** ** The menu's update of a score *)

Lemma update_first_split (student_id : Z) (subject : string) (score : Q)
    (l1 l2 : list Student) (s : Student) :
  id s = student_id → Forall (λ s', id s' ≠ student_id) l1 →
  update_first student_id subject score (l1 ++ s :: l2)
  = Some ((set_score subject score s).1,
          l1 ++ (set_score subject score s).2 :: l2).
Proof.
  intros Hs. induction 1 as [|s' l1 Hs' Hl1 IH].
  - cbn [app update_first]. by rewrite decide_True.
  - cbn [app update_first]. rewrite decide_False by done. by rewrite IH.
Qed.

Lemma update_first_none (student_id : Z) (subject : string) (score : Q)
    (l : list Student) :
  Forall (λ s', id s' ≠ student_id) l →
  update_first student_id subject score l = None.
Proof.
  induction 1 as [|s' l Hs' Hl IH]; [done|].
  cbn [update_first]. rewrite decide_False by done. by rewrite IH.
Qed.

(** X17. Option 2 of the menu changes the record [find] returns, the first
    one with the id, by [set_score], and no other record, even one with the
    same id; it leaves [_next_id] alone. When no record has the id nothing
    changes. *)
Theorem update_score_first (student_id : Z) (subject : string) (score : Q)
    (self : GradeManager) :
  (find student_id self = None →
   update_score student_id subject score self = (None, self))
  ∧ (∀ l1 s l2,
       students self = l1 ++ s :: l2 → id s = student_id →
       Forall (λ s', id s' ≠ student_id) l1 →
       find student_id self = Some s
       ∧ update_score student_id subject score self
         = (Some (set_score subject score s).1,
            {| students := l1 ++ (set_score subject score s).2 :: l2;
               _next_id := _next_id self |})).
Proof.
  split.
  - intros Hnone. unfold find in Hnone.
    apply (head_filter_None (λ s, id s = student_id)) in Hnone.
    unfold update_score. by rewrite (update_first_none _ _ _ _ Hnone).
  - intros l1 s l2 Hl Hs Hl1. split.
    + unfold find. apply (head_filter_split (λ s, id s = student_id)).
      by exists l1, l2.
    + unfold update_score. rewrite Hl.
      by rewrite (update_first_split _ subject score l1 l2 s Hs Hl1).
Qed.

Lemma update_score_first_witness :
  update_score 5 "Math" 10 twins = (None, twins)
  ∧ (find 1 twins = Some {| id := 1; name := "Ann"; subjects := ∅ |}
     ∧ update_score 1 " Art " 77 twins
       = (Some (Ok tt),
          {| students :=
               [ {| id := 1; name := "Ann"; subjects := {[ "Art" := 77%Q ]} |};
                 {| id := 1; name := "Ben"; subjects := {[ "Math" := 40%Q ]} |} ];
             _next_id := 2 |})).
Proof.
  split.
  - apply (proj1 (update_score_first 5 "Math" 10 twins)). reflexivity.
  - apply (proj2 (update_score_first 1 " Art " 77 twins) []
             {| id := 1; name := "Ann"; subjects := ∅ |}
             [{| id := 1; name := "Ben"; subjects := {[ "Math" := 40%Q ]} |}]);
      [reflexivity|reflexivity|constructor].
Defined.

(** ** ask_scores *)

Lemma setitem_keys (k : string) (v : Q) (d : list (string * Q)) :
  (setitem k v d).*1 = if decide (k ∈ d.*1) then d.*1 else d.*1 ++ [k].
Proof.
  induction d as [|[k' v'] d IH]; [done|].
  cbn [setitem]. destruct (decide (k' = k)) as [->|Hne].
  - cbn [fmap list_fmap fst]. rewrite decide_True; [done|]. apply list_elem_of_here.
  - rewrite !fmap_cons, IH. cbn [fst]. destruct (decide (k ∈ d.*1)) as [Hin|Hin].
    + rewrite decide_True; [done|]. by apply list_elem_of_further.
    + rewrite decide_False; [done|]. intros Hc.
      apply elem_of_cons in Hc as [->|Hc]; done.
Qed.

Lemma setitem_console_keys (k : string) (v : Q) (d : list (string * Q)) :
  k ≠ "" → Str.trimmed k → console_keys d → console_keys (setitem k v d).
Proof.
  intros Hk Ht [Hnd Hall]. unfold console_keys. rewrite setitem_keys.
  destruct (decide (k ∈ d.*1)) as [Hin|Hin]; [done|]. split.
  - apply NoDup_app. split; [done|]. split; [|apply NoDup_singleton].
    intros x Hx Hx'. apply list_elem_of_singleton in Hx'. by subst x.
  - apply Forall_app. split; [done|]. by constructor.
Qed.

Lemma ask_scores_from_facts (py_float : string → option Q) (lines : list string) :
  (∀ d d' rest, ask_scores_from py_float d lines = Some (d', rest) →
     console_keys d →
     console_keys d' ∧ ∃ used, lines = used ++ rest ∧ used ≠ [])
  ∧ (∀ line d d' rest,
       ask_scores_from py_float d (line :: lines) = Some (d', rest) →
       console_keys d →
       console_keys d' ∧ ∃ used, line :: lines = used ++ rest ∧ used ≠ []).
Proof.
  induction lines as [|line' lines [IH1 IH2]].
  - split; [done|]. intros line d d' rest H Hd. cbn [ask_scores_from] in H.
    destruct (decide (Str.strip line = "")); [|done].
    injection H as <- <-. split; [done|]. by exists [line].
  - split; [apply IH2|]. intros line d d' rest H Hd. cbn [ask_scores_from] in H.
    destruct (decide (Str.strip line = "")) as [|Hne].
    + injection H as <- <-. split; [done|]. by exists [line].
    + assert (∀ d0, console_keys d0 →
                ask_scores_from py_float d0 lines = Some (d', rest) →
                console_keys d' ∧ ∃ used, line :: line' :: lines = used ++ rest ∧ used ≠ [])
        as Hgo.
      { intros d0 Hd0 H0. destruct (IH1 d0 d' rest H0 Hd0) as [Hd' (used & -> & _)].
        split; [done|]. by exists (line :: line' :: used). }
      destruct (py_float line') as [sc|].
      * apply (Hgo (setitem (Str.strip line) sc d)); [|done].
        apply setitem_console_keys; [done|apply StrFacts.strip_trimmed|done].
      * by apply (Hgo d).
Qed.

Lemma ask_scores_facts (py_float : string → option Q) (lines rest : list string)
    (scores : list (string * Q)) :
  ask_scores py_float lines = Some (scores, rest) →
  console_keys scores ∧ ∃ used, lines = used ++ rest ∧ used ≠ [].
Proof.
  intros H. apply (proj1 (ask_scores_from_facts py_float lines) [] scores rest H).
  split; [apply NoDup_nil_2|constructor].
Qed.

(** X18. The dict [ask_scores] returns has keys that are not empty, carry no
    whitespace at either end and are pairwise distinct, whatever is typed;
    the lines it has read are a non-empty prefix of the lines there were. *)
Theorem ask_scores_keys (py_float : string → option Q)
    (lines rest : list string) (scores : list (string * Q)) :
  ask_scores py_float lines = Some (scores, rest) →
  NoDup scores.*1
  ∧ Forall (λ kv, kv.1 ≠ "" ∧ Str.strip kv.1 = kv.1) scores
  ∧ ∃ used, lines = used ++ rest ∧ used ≠ [].
Proof.
  intros H. destruct (ask_scores_facts _ _ _ _ H) as [[Hnd Hall] Hused].
  split; [done|]. split; [|done]. by apply Forall_fmap in Hall.
Qed.

Lemma ask_scores_keys_witness :
  NoDup [("Math", 91%Q); ("History", 88%Q)].*1
  ∧ Forall (λ kv, kv.1 ≠ "" ∧ Str.strip kv.1 = kv.1)
      [("Math", 91%Q); ("History", 88%Q)]
  ∧ ∃ used,
      ["Math"; "95"; " History "; "88"; "Art"; "x"; "Math "; "91"; ""; "0"]
      = used ++ ["0"] ∧ used ≠ [].
Proof.
  apply (ask_scores_keys sample_float
           ["Math"; "95"; " History "; "88"; "Art"; "x"; "Math "; "91"; ""; "0"]).
  reflexivity.
Defined.

Lemma strip_keys_console (scores : list (string * Q)) :
  console_keys scores → strip_keys scores = scores.
Proof.
  intros [_ Hall]. apply Forall_fmap in Hall. unfold strip_keys.
  induction Hall as [|[k v] l [_ Hk] Hl IH]; [done|].
  rewrite fmap_cons, IH. cbn [fst snd]. by rewrite Hk.
Qed.

Lemma dict_of_items_lookup (items : list (string * Q)) (k : string) (v : Q) :
  NoDup items.*1 → dict_of_items items !! k = Some v ↔ (k, v) ∈ items.
Proof.
  intros Hnd. unfold dict_of_items. split.
  - intros Hkv.
    destruct (dict_update_keys ∅ items k) as [Hs|([k' v'] & Hin & ->)].
    + by rewrite Hkv.
    + rewrite lookup_empty in Hs. by destruct Hs.
    + rewrite (dict_update_NoDup ∅ items k' v' Hnd Hin) in Hkv. by injection Hkv as ->.
  - by apply dict_update_NoDup.
Qed.

(** X19. A dict that comes from [ask_scores] loses nothing in
    [add_student]: when its scores all lie in [0, 100], the new record has
    exactly the typed entries, each subject with its score. *)
Theorem ask_scores_add_student (py_float : string → option Q)
    (lines rest : list string) (scores : list (string * Q))
    (nm : string) (self : GradeManager) :
  ask_scores py_float lines = Some (scores, rest) →
  Forall (λ kv, valid_score kv.2) scores →
  ∃ stu, (add_student nm scores self).1.1 = Ok stu
    ∧ ∀ k v, subjects stu !! k = Some v ↔ (k, v) ∈ scores.
Proof.
  intros Hask Hv. destruct (ask_scores_facts _ _ _ _ Hask) as [Hkeys _].
  eexists. rewrite (add_student_valid self nm scores Hv). split; [done|].
  cbn [subjects]. rewrite (strip_keys_console scores Hkeys).
  intros k v. apply dict_of_items_lookup. by destruct Hkeys.
Qed.

Lemma ask_scores_add_student_witness :
  ∃ stu,
    (add_student "Ed" [("Math", 91%Q); ("History", 88%Q)] class_of_three).1.1 = Ok stu
    ∧ ∀ k v, subjects stu !! k = Some v
             ↔ (k, v) ∈ [("Math", 91%Q); ("History", 88%Q)].
Proof.
  apply (ask_scores_add_student sample_float
           ["Math"; "95"; " History "; "88"; "Art"; "x"; "Math "; "91"; ""; "0"]
           ["0"]).
  - reflexivity.
  - repeat (constructor; [split; by_computation|]). constructor.
Defined.

(** ** main *)

Lemma ask_scores_shorter (py_float : string → option Q) (lines rest : list string)
    (scores : list (string * Q)) :
  ask_scores py_float lines = Some (scores, rest) →
  (length rest < length lines)%nat.
Proof.
  intros H. destruct (ask_scores_facts _ _ _ _ H) as [_ (used & -> & Hused)].
  rewrite length_app. destruct used; [done|]. cbn [length]. lia.
Qed.

Lemma menu_round_gm (py_int : string → option Z) (py_float : string → option Q)
    (w w' : world) (f : flow) :
  menu_round py_int py_float w = (f, w') →
  gm w' = gm w ∨ step (gm w) (gm w').
Proof.
  intros H. menu_cases H; cbn [gm]; try (by left); right.
  - match goal with
    | Ha : add_student ?n ?sc _ = _ |- _ =>
        pose proof (step_add (gm w) n sc) as Hs; by rewrite Ha in Hs
    end.
  - apply step_update.
  - apply step_delete.
  - match goal with
    | Hl : load ?p ?fs _ = _ |- _ =>
        pose proof (step_load (gm w) p fs) as Hs; by rewrite Hl in Hs
    end.
Qed.

Lemma menu_round_disk (py_int : string → option Z) (py_float : string → option Q)
    (w w' : world) (f : flow) :
  menu_round py_int py_float w = (f, w') →
  disk w' = disk w
  ∨ (gm w' = gm w ∧ disk w' = save DATA_FILE (gm w) (disk w)).
Proof. intros H. menu_cases H; cbn [gm disk]; auto. Qed.

Lemma menu_round_break (py_int : string → option Z) (py_float : string → option Q)
    (w w' : world) :
  menu_round py_int py_float w = (Break, w') →
  gm w' = gm w ∧ disk w' = save DATA_FILE (gm w) (disk w)
  ∧ ∃ line, line ∈ stdin w ∧ Str.strip line = "0".
Proof.
  intros H. menu_cases H; cbn [gm disk].
  split; [done|]. split; [done|].
  eexists. split; [apply list_elem_of_here|done].
Qed.

Lemma menu_round_crash (py_int : string → option Z) (py_float : string → option Q)
    (w w' : world) (c : crash) :
  menu_round py_int py_float w = (Crash c, w') →
  gm w' = gm w ∧ disk w' = disk w.
Proof. intros H. menu_cases H; cbn [gm disk]; done. Qed.

Lemma menu_round_lines (py_int : string → option Z) (py_float : string → option Q)
    (w w' : world) (f : flow) :
  menu_round py_int py_float w = (f, w') → f ≠ Crash NoInput →
  (length (stdin w') < length (stdin w))%nat.
Proof.
  intros H Hf. menu_cases H; cbn [stdin length]; try done; try lia;
    match goal with
    | Ha : ask_scores _ _ = Some _ |- _ => apply ask_scores_shorter in Ha; lia
    end.
Qed.

Lemma ask_scores_suffix (py_float : string → option Q) (lines rest : list string)
    (scores : list (string * Q)) :
  ask_scores py_float lines = Some (scores, rest) → rest `suffix_of` lines.
Proof.
  intros H. destruct (ask_scores_facts _ _ _ _ H) as [_ (used & -> & _)].
  by exists used.
Qed.

Lemma menu_round_suffix (py_int : string → option Z) (py_float : string → option Q)
    (w w' : world) (f : flow) :
  menu_round py_int py_float w = (f, w') → stdin w' `suffix_of` stdin w.
Proof.
  intros H. menu_cases H; cbn [stdin];
    repeat match goal with
           | Hs : stdin _ = _ |- _ => rewrite Hs; clear Hs
           end;
    try apply suffix_nil; try done;
    repeat apply suffix_cons_r; try done.
  all: match goal with
       | Ha : ask_scores _ _ = Some _ |- _ => by apply ask_scores_suffix in Ha
       end.
Qed.

Lemma menu_loop_facts (py_int : string → option Z) (py_float : string → option Q)
    (rounds : nat) (w w' : world) (e : ending) :
  menu_loop py_int py_float rounds w = (e, w') →
  rtc step (gm w) (gm w')
  ∧ (∀ other, other ≠ DATA_FILE → disk w' !! other = disk w !! other)
  ∧ (e = Returned →
     disk w' !! DATA_FILE = Some (Document (JArr (to_dict <$> students (gm w'))))
     ∧ ∃ line, line ∈ stdin w ∧ Str.strip line = "0").
Proof.
  revert w. induction rounds as [|rounds IH]; intros w H.
  - injection H as <- <-. split; [apply rtc_refl|]. by split.
  - cbn [menu_loop] in H.
    destruct (menu_round py_int py_float w) as [f w1] eqn:Hround.
    pose proof (menu_round_gm _ _ _ _ _ Hround) as Hgm.
    pose proof (menu_round_disk _ _ _ _ _ Hround) as Hdisk.
    assert (rtc step (gm w) (gm w1)) as Hrtc.
    { destruct Hgm as [->|Hstep]; [apply rtc_refl|by apply rtc_once]. }
    assert (∀ other, other ≠ DATA_FILE → disk w1 !! other = disk w !! other) as Hother.
    { intros other Hne. destruct Hdisk as [->|[_ ->]]; [done|].
      unfold save. by apply lookup_insert_ne. }
    destruct f as [| |c].
    + destruct (IH w1 H) as (Hrtc' & Hother' & Hret).
      split; [by etrans|]. split.
      * intros other Hne. rewrite (Hother' other Hne). by apply Hother.
      * intros He. destruct (Hret He) as [Hfile (line & Hin & Hline)].
        split; [done|]. exists line. split; [|done].
        destruct (menu_round_suffix _ _ _ _ _ Hround) as [used ->].
        apply elem_of_app. by right.
    + injection H as <- <-. split; [done|]. split; [done|]. intros _.
      destruct (menu_round_break _ _ _ _ Hround) as (Hgm' & -> & Hline).
      split; [|done]. rewrite Hgm'. unfold save, json_dumps. apply lookup_insert_eq.
    + injection H as <- <-. split; [done|]. by split.
Qed.

Lemma menu_loop_rounds (py_int : string → option Z) (py_float : string → option Q)
    (rounds : nat) (w : world) :
  (length (stdin w) < rounds)%nat →
  (menu_loop py_int py_float rounds w).1 ≠ OutOfRounds.
Proof.
  revert w. induction rounds as [|rounds IH]; intros w Hlen; [lia|].
  cbn [menu_loop].
  destruct (menu_round py_int py_float w) as [f w1] eqn:Hround.
  destruct f as [| |c]; [|done|done].
  apply IH. pose proof (menu_round_lines _ _ _ _ _ Hround ltac:(done)). lia.
Qed.

Lemma rtc_step_names_trimmed (m m' : GradeManager) :
  rtc step m m' → names_trimmed m → names_trimmed m'.
Proof.
  induction 1 as [|m1 m2 m3 H12 _ IH]; [done|].
  intros Hm. apply IH. by apply (step_names_trimmed m1 m2).
Qed.

Lemma main_facts (py_int : string → option Z) (py_float : string → option Q)
    (rounds : nat) (files : filesystem) (lines : list string)
    (interrupt : bool) (e : ending) (w : world) :
  main py_int py_float rounds files lines interrupt = (e, w) →
  reachable (gm w)
  ∧ (∀ other, other ≠ DATA_FILE → disk w !! other = files !! other)
  ∧ (e = Returned →
     disk w !! DATA_FILE = Some (Document (JArr (to_dict <$> students (gm w))))
     ∧ (interrupt = true ∨ ∃ line, line ∈ lines ∧ Str.strip line = "0")).
Proof.
  unfold main. intros H.
  pose proof (step_load GradeManager_init DATA_FILE files) as Hstep.
  destruct (load DATA_FILE files GradeManager_init) as [[[]|e0|] gm0] eqn:Hload;
    cbn [snd] in Hstep.
  - destruct (menu_loop py_int py_float rounds (mkWorld gm0 files lines))
      as [e1 w1] eqn:Hloop.
    destruct (menu_loop_facts _ _ _ _ _ _ Hloop) as (Hrtc & Hother & Hret).
    cbn [gm disk stdin] in *.
    assert (reachable (gm w1)) as Hreach.
    { unfold reachable. eapply rtc_l; [exact Hstep|exact Hrtc]. }
    assert ((e, w) = (e1, w1)
            ∨ (interrupt = true ∧ e = Returned
               ∧ w = mkWorld (gm w1) (save DATA_FILE (gm w1) (disk w1)) (stdin w1)))
      as [[= -> ->]|(Hint & -> & ->)].
    { destruct e1 as [|[|e'|]|]; try (left; by rewrite <- H).
      destruct interrupt; [right|left]; by injection H as <- <-. }
    + split; [done|]. split; [done|]. intros He.
      destruct (Hret He) as [Hfile Hline]. split; [done|]. by right.
    + cbn [gm disk]. split; [done|]. split.
      * intros other Hne. unfold save. rewrite lookup_insert_ne by done.
        by apply Hother.
      * intros _. split; [|by left]. unfold save, json_dumps.
        apply lookup_insert_eq.
  - injection H as <- <-. cbn [gm disk].
    split; [by apply rtc_once|]. by split.
  - injection H as <- <-. cbn [gm disk].
    split; [by apply rtc_once|]. by split.
Qed.

(** X20. [main] ends: with more rounds allowed than there are lines to read
    the model does not run out of rounds, so the program returns or dies of
    an exception; and it returns only when some line typed is the choice 0
    or the user interrupts it. *)
Theorem main_ends (py_int : string → option Z) (py_float : string → option Q)
    (rounds : nat) (files : filesystem) (lines : list string)
    (interrupt : bool) :
  ((length lines < rounds)%nat →
   (main py_int py_float rounds files lines interrupt).1 ≠ OutOfRounds)
  ∧ ((main py_int py_float rounds files lines interrupt).1 = Returned →
     interrupt = true ∨ ∃ line, line ∈ lines ∧ Str.strip line = "0").
Proof.
  split.
  - intros Hlen. unfold main.
    destruct (load DATA_FILE files GradeManager_init) as [[[]|e0|] gm0];
      [|done|done].
    pose proof (menu_loop_rounds py_int py_float rounds
                  (mkWorld gm0 files lines) Hlen) as Hloop.
    destruct (menu_loop py_int py_float rounds (mkWorld gm0 files lines))
      as [e1 w1].
    cbn [fst] in Hloop. destruct e1 as [|[|e'|]|]; try done.
    by destruct interrupt.
  - intros He.
    destruct (main py_int py_float rounds files lines interrupt) as [e w] eqn:Hmain.
    by apply (main_facts _ _ _ _ _ _ _ _ Hmain).
Qed.

Lemma main_ends_witness :
  (main sample_int sample_float 21 disk_twins sample_lines false).1 ≠ OutOfRounds
  ∧ (false = true ∨ ∃ line, line ∈ sample_lines ∧ Str.strip line = "0").
Proof.
  split.
  - apply (proj1 (main_ends sample_int sample_float 21 disk_twins sample_lines false)).
    vm_compute. lia.
  - apply (proj2 (main_ends sample_int sample_float 21 disk_twins sample_lines false)).
    reflexivity.
Defined.

(** An interrupt in the middle of a session: [main] saves and returns. *)
Example main_interrupted :
  (main sample_int sample_float 21 ∅ ["1"; "Ada"; "Math"; "95"; ""; "4"] true).1
  = Returned
  ∧ students (gm (main sample_int sample_float 21 ∅
                    ["1"; "Ada"; "Math"; "95"; ""; "4"] true).2)
    = [{| id := 1; name := "Ada"; subjects := {[ "Math" := 95%Q ]} |}].
Proof. split; reflexivity. Qed.

(** X21. When [main] returns, after the choice 0 or after an interrupt,
    the data file holds the collection as it was at the end, and a [load]
    into a new manager, as the next run starts with, gives back the same
    records in the same order. *)
Theorem main_saves_on_return (py_int : string → option Z)
    (py_float : string → option Q) (rounds : nat) (files : filesystem)
    (lines : list string) (interrupt : bool) (w : world) :
  main py_int py_float rounds files lines interrupt = (Returned, w) →
  disk w !! DATA_FILE = Some (Document (JArr (to_dict <$> students (gm w))))
  ∧ ∃ gm',
      load DATA_FILE (disk w) GradeManager_init = (Ok tt, gm')
      ∧ students gm' = students (gm w).
Proof.
  intros Hmain. destruct (main_facts _ _ _ _ _ _ _ _ Hmain) as (Hreach & _ & Hret).
  destruct (Hret eq_refl) as [Hfile _]. split; [done|].
  eexists. split.
  - apply (load_array DATA_FILE (disk w) GradeManager_init _ (students (gm w)) Hfile).
    apply traverse_from_dict.
    apply (rtc_step_names_trimmed GradeManager_init (gm w) Hreach). constructor.
  - reflexivity.
Qed.

Lemma main_saves_on_return_witness :
  let w := (main sample_int sample_float 21 disk_twins sample_lines false).2 in
  disk w !! DATA_FILE = Some (Document (JArr (to_dict <$> students (gm w))))
  ∧ ∃ gm',
      load DATA_FILE (disk w) GradeManager_init = (Ok tt, gm')
      ∧ students gm' = students (gm w).
Proof.
  apply (main_saves_on_return sample_int sample_float 21 disk_twins sample_lines false).
  reflexivity.
Defined.

(** X22. [main] writes no file but the data file: every other path holds at
    the end what it held at the start, however the session went. *)
Theorem main_only_data_file (py_int : string → option Z)
    (py_float : string → option Q) (rounds : nat) (files : filesystem)
    (lines : list string) (interrupt : bool) (other : string) :
  other ≠ DATA_FILE →
  disk (main py_int py_float rounds files lines interrupt).2 !! other
  = files !! other.
Proof.
  intros Hne.
  destruct (main py_int py_float rounds files lines interrupt) as [e w] eqn:Hmain.
  by apply (main_facts _ _ _ _ _ _ _ _ Hmain).
Qed.

Lemma main_only_data_file_witness :
  disk (main sample_int sample_float 21
          (<[ "notes.txt" := Garbled ]> disk_twins) sample_lines true).2 !! "notes.txt"
  = (<[ "notes.txt" := Garbled ]> disk_twins) !! "notes.txt".
Proof.
  apply (main_only_data_file sample_int sample_float 21
           (<[ "notes.txt" := Garbled ]> disk_twins) sample_lines true "notes.txt").
  by_computation.
Defined.

(** X23. Option 1 does not catch the ValueError of [add_student]: when a
    typed score is outside [0, 100] the exception ends the menu loop, with
    no record added and nothing written to the data file. *)
Theorem menu_add_bad_score_dies (py_int : string → option Z)
    (py_float : string → option Q) (rounds : nat) (w : world)
    (line line1 : string) (inp inp2 : list string) (scores : list (string * Q)) :
  stdin w = line :: line1 :: inp →
  Str.strip line = "1" →
  ask_scores py_float inp = Some (scores, inp2) →
  Exists (λ kv, ¬ valid_score kv.2) scores →
  menu_loop py_int py_float (S rounds) w
  = (Died (Uncaught (ValueError score_message)), mkWorld (gm w) (disk w) inp2).
Proof.
  intros Hin Hline Hask Hbad.
  destruct (first_invalid scores Hbad) as (pre & bad & post & -> & Hpre & Hb).
  cbn [menu_loop]. unfold menu_round. rewrite Hin, Hline.
  rewrite decide_True by done. rewrite Hask.
  by rewrite (add_student_invalid (gm w) (Str.strip line1) pre post bad Hpre Hb).
Qed.

Lemma menu_add_bad_score_dies_witness :
  menu_loop sample_int sample_float 5
    (mkWorld class_of_three disk_twins ["1"; "Ed"; "Art"; "120"; ""; "5"; "0"])
  = (Died (Uncaught (ValueError score_message)),
     mkWorld class_of_three disk_twins ["5"; "0"]).
Proof.
  apply (menu_add_bad_score_dies sample_int sample_float 4
           (mkWorld class_of_three disk_twins ["1"; "Ed"; "Art"; "120"; ""; "5"; "0"])
           "1" "Ed" ["Art"; "120"; ""; "5"; "0"] ["5"; "0"] [("Art", 120%Q)]).
  - reflexivity.
  - reflexivity.
  - reflexivity.
  - apply Exists_cons. left. by_computation.
Defined.

Lemma update_first_invalid (student_id : Z) (subject : string) (score : Q)
    (l l' : list Student) (r : result unit) :
  ¬ valid_score score →
  update_first student_id subject score l = Some (r, l') →
  r = Raise (ValueError score_message) ∧ l' = l.
Proof.
  intros Hbad. revert r l'. induction l as [|s l IH]; intros r l' H; [done|].
  cbn [update_first] in H. destruct (decide (id s = student_id)).
  - rewrite (set_score_invalid subject score s Hbad) in H. by injection H as <- <-.
  - destruct (update_first student_id subject score l) as [[r0 l0]|]; [|done].
    injection H as <- <-. by destruct (IH r0 l0 eq_refl) as [-> ->].
Qed.

(** X24. Option 2 catches it: a score outside [0, 100] for a record that
    exists is refused, the manager and the files stay as they were, and the
    menu goes on with the next line. *)
Theorem menu_update_bad_score_goes_on (py_int : string → option Z)
    (py_float : string → option Q) (w : world)
    (line line1 line2 line3 : string) (inp : list string)
    (student_id : Z) (score : Q) :
  stdin w = line :: line1 :: line2 :: line3 :: inp →
  Str.strip line = "2" →
  py_int line1 = Some student_id →
  is_Some (find student_id (gm w)) →
  py_float line3 = Some score →
  ¬ valid_score score →
  menu_round py_int py_float w = (Continue, mkWorld (gm w) (disk w) inp).
Proof.
  intros Hin Hline Hid [s Hfind] Hscore Hbad.
  unfold menu_round. rewrite Hin, Hline.
  rewrite decide_False by done. rewrite decide_True by done.
  rewrite Hid, Hfind, Hscore. do 2 f_equal.
  unfold update_score.
  destruct (update_first student_id (Str.strip line2) score (students (gm w)))
    as [[r l]|] eqn:Hup; [|done].
  destruct (update_first_invalid _ _ _ _ _ _ Hbad Hup) as [_ ->].
  by destruct (gm w).
Qed.

Lemma menu_update_bad_score_goes_on_witness :
  menu_round sample_int sample_float
    (mkWorld class_of_three disk_twins ["2"; "1"; "Art"; "120"; "0"])
  = (Continue, mkWorld class_of_three disk_twins ["0"]).
Proof.
  apply (menu_update_bad_score_goes_on sample_int sample_float
           (mkWorld class_of_three disk_twins ["2"; "1"; "Art"; "120"; "0"])
           "2" "1" "Art" "120" ["0"] 1 120).
  - reflexivity.
  - reflexivity.
  - reflexivity.
  - eexists. reflexivity.
  - reflexivity.
  - by_computation.
Defined.
